(** * Policy-gradient networks of hw2: [cs285/networks/policies.py] and
      [cs285/networks/critics.py]

    The development embeds [MLPPolicy], [MLPPolicyPG] and [ValueCritic]
    together with the part of the tensor library they drive: shapes,
    broadcasting, affine layers, the Categorical and Normal distributions,
    the mean-squared-error loss and the Adam step.  Single-precision numbers
    are idealised as real numbers ([R]); shapes, broadcasting, errors and the
    order of the effects are the ones of the code. *)

From Stdlib Require Import String Reals Lra Lia ZArith Bool Arith List.
Import ListNotations.
Open Scope R_scope.

(** ** Exceptions and fallible computations *)

Inductive error : Type :=
| IndexError            (* tuple index out of range: [obs.shape[1]] *)
| ShapeError            (* RuntimeError: sizes do not match / cannot be multiplied *)
| ValueError            (* argument validation of distributions and of Adam *)
| AllocError            (* RuntimeError: negative dimension *)
| SamplingError         (* RuntimeError of multinomial on an empty distribution *)
| AttributeError        (* a sub-network the policy does not own *)
| NotImplementedError.

Inductive result (A : Type) : Type :=
| Ok (a : A)
| Raise (e : error).
Arguments Ok {A} a.
Arguments Raise {A} e.

Definition bind {A B : Type} (m : result A) (k : A -> result B) : result B :=
  match m with
  | Ok a => k a
  | Raise e => Raise e
  end.

Notation "x <- m ;; k" := (bind m (fun x => k))
  (at level 61, m at next level, right associativity).

Definition is_ok {A : Type} (m : result A) : bool :=
  match m with Ok _ => true | Raise _ => false end.

(** ** Tensors: a shape and row-major data *)

Module Torch.

Record tensor : Type := mkTensor { shape : list nat; data : list R }.

(** Arrays on the NumPy side of the boundary. *)
Record ndarray : Type := mkArray { nd_shape : list nat; nd_data : list R }.

Definition numel (s : list nat) : nat := fold_right Nat.mul 1%nat s.

Definition wf_tensor (t : tensor) : Prop := length (data t) = numel (shape t).
Definition wf_array (a : ndarray) : Prop := length (nd_data a) = numel (nd_shape a).

Definition sum (l : list R) : R := fold_right Rplus 0 l.

Definition zip_with {A B C : Type} (f : A -> B -> C) (a : list A) (b : list B) : list C :=
  map (fun p => f (fst p) (snd p)) (combine a b).

Definition map_tensor (f : R -> R) (t : tensor) : tensor :=
  mkTensor (shape t) (map f (data t)).

(** [n] consecutive blocks of [size] elements. *)
Fixpoint chunks {A : Type} (n size : nat) (d : list A) : list (list A) :=
  match n with
  | O => []
  | S n' => firstn size d :: chunks n' size (skipn size d)
  end.

(** *** Broadcasting *)

(** Left-pad a shape with ones up to rank [n]. *)
Definition pad_shape (n : nat) (s : list nat) : list nat :=
  repeat 1%nat (n - length s) ++ s.

(** Two shapes of the same rank: per dimension, equal sizes or one of them 1. *)
Fixpoint broadcast_dims (s t : list nat) : option (list nat) :=
  match s, t with
  | [], [] => Some []
  | a :: s', b :: t' =>
      match broadcast_dims s' t' with
      | None => None
      | Some r =>
          if (a =? b)%nat then Some (a :: r)
          else if (a =? 1)%nat then Some (b :: r)
          else if (b =? 1)%nat then Some (a :: r)
          else None
      end
  | _, _ => None
  end.

Definition broadcast_shapes (s t : list nat) : option (list nat) :=
  let n := Nat.max (length s) (length t) in
  broadcast_dims (pad_shape n s) (pad_shape n t).

(** [expand s t d]: the data [d] of shape [s] viewed at shape [t] (same rank,
    [s] broadcastable to [t]): a dimension of size 1 is repeated. *)
Fixpoint expand {A : Type} (s t : list nat) (d : list A) : list A :=
  match s, t with
  | a :: s', b :: t' =>
      if (a =? b)%nat
      then concat (map (expand s' t') (chunks a (numel s') d))
      else concat (repeat (expand s' t' d) b)
  | _, _ => d
  end.

Definition expand_to {A : Type} (s t : list nat) (d : list A) : list A :=
  expand (pad_shape (length t) s) t d.

(** Element-wise binary operation with broadcasting. *)
Definition broadcast_op (f : R -> R -> R) (x y : tensor) : result tensor :=
  match broadcast_shapes (shape x) (shape y) with
  | None => Raise ShapeError
  | Some s =>
      Ok (mkTensor s (zip_with f (expand_to (shape x) s (data x))
                                 (expand_to (shape y) s (data y))))
  end.

Definition mul : tensor -> tensor -> result tensor := broadcast_op Rmult.

(** [t.unsqueeze(-1)] *)
Definition unsqueeze_last (t : tensor) : tensor :=
  mkTensor (shape t ++ [1%nat]) (data t).

(** [t.mean()]: a 0-dimensional tensor, here its value. *)
Definition mean (t : tensor) : R := sum (data t) / INR (numel (shape t)).

Definition neg (x : R) : R := - x.

(** *** [nn.Linear] *)

Record Linear : Type := mkLinear { weight : tensor; bias : tensor }.

Definition out_features (l : Linear) : nat := nth 0 (shape (weight l)) 0%nat.
Definition in_features (l : Linear) : nat := nth 1 (shape (weight l)) 0%nat.

Definition dot (a b : list R) : R := sum (zip_with Rmult a b).

(** One row through the layer: [x @ W^T + b]. *)
Definition affine (l : Linear) (x : list R) : list R :=
  map (fun j => dot x (nth j (chunks (out_features l) (in_features l)
                                     (data (weight l))) [])
                + nth j (data (bias l)) 0)
      (seq 0 (out_features l)).

(** Input of shape [.. x in_features], output of shape [.. x out_features]. *)
Definition Linear_forward (l : Linear) (x : tensor) : result tensor :=
  match shape x with
  | [] => Raise ShapeError
  | _ :: _ =>
      let lead := removelast (shape x) in
      if (last (shape x) 0 =? in_features l)%nat
      then Ok (mkTensor (lead ++ [out_features l])
                 (concat (map (affine l)
                              (chunks (numel lead) (in_features l) (data x)))))
      else Raise ShapeError
  end.

(** *** [torch.distributions] *)

Definition log_softmax (row : list R) : list R :=
  let lse := ln (sum (map exp row)) in map (fun x => x - lse) row.

(** [probs] of a Categorical: the softmax of its logits. *)
Definition softmax (row : list R) : list R := map exp (log_softmax row).

(** A distribution remembers whether its parameters were produced with
    gradient tracking ([requires_grad]). *)
Inductive Distribution : Type :=
| Categorical (logits : tensor) (requires_grad : bool)
| Normal (loc scale : tensor) (requires_grad : bool).


(** [Categorical(logits=...)]: the logits are normalised over the last
    dimension; a 0-dimensional argument is rejected. *)
Definition new_Categorical (logits : tensor) (g : bool) : result Distribution :=
  match shape logits with
  | [] => Raise ValueError
  | _ :: _ =>
      let k := last (shape logits) 0%nat in
      let b := removelast (shape logits) in
      Ok (Categorical
            (mkTensor (shape logits)
               (concat (map log_softmax (chunks (numel b) k (data logits))))) g)
  end.

(** [Normal(loc, scale)]: both arguments are broadcast to a common shape. *)
Definition new_Normal (loc scale : tensor) (g : bool) : result Distribution :=
  match broadcast_shapes (shape loc) (shape scale) with
  | None => Raise ShapeError
  | Some s =>
      Ok (Normal (mkTensor s (expand_to (shape loc) s (data loc)))
                 (mkTensor s (expand_to (shape scale) s (data scale))) g)
  end.

(** The category a value denotes: an integer in [[0, k-1]]. *)
Definition index_of (k : nat) (v : R) : option nat :=
  let z := Int_part v in
  if Req_dec_T (IZR z) v
  then if ((0 <=? z) && (z <? Z.of_nat k))%Z then Some (Z.to_nat z) else None
  else None.

Definition in_support (k : nat) (v : R) : bool :=
  match index_of k v with Some _ => true | None => false end.

Definition pick (row : list R) (v : R) : R :=
  match index_of (length row) v with
  | Some i => nth i row 0
  | None => 0
  end.

(** Density of one coordinate of a Normal. *)
Definition normal_log_density (sq_err sigma : R) : R :=
  - sq_err / (2 * (sigma * sigma)) - ln sigma - ln (sqrt (2 * PI)).

Definition sq_diff (a b : R) : R := (a - b) * (a - b).

(** [dist.log_prob(value)]: the sample is validated (shape broadcastable with
    the batch shape, values in the support), then scored. *)
Definition log_prob (d : Distribution) (value : tensor) : result tensor :=
  match d with
  | Categorical logits _ =>
      let k := last (shape logits) 0%nat in
      let b := removelast (shape logits) in
      match broadcast_shapes (shape value) b with
      | None => Raise ValueError
      | Some s =>
          if forallb (in_support k) (data value)
          then Ok (mkTensor s
                     (zip_with pick
                        (expand_to b s (chunks (numel b) k (data logits)))
                        (expand_to (shape value) s (data value))))
          else Raise ValueError
      end
  | Normal loc scale _ =>
      match broadcast_shapes (shape value) (shape loc) with
      | None => Raise ValueError
      | Some _ =>
          e <- broadcast_op sq_diff value loc ;;
          broadcast_op normal_log_density e scale
      end
  end.

(** The random number generator: a stream of uniform variates of [[0,1)], a
    stream of standard normal variates, and the position reached. *)
Record generator : Type :=
  mkGenerator { uniform : nat -> R; gaussian : nat -> R; position : nat }.

Definition draws (f : nat -> R) (g : generator) (n : nat) : list R :=
  map (fun i => f (position g + i)%nat) (seq 0 n).

Definition advance (g : generator) (n : nat) : generator :=
  mkGenerator (uniform g) (gaussian g) (position g + n).

(** Index drawn by [multinomial]: first category whose cumulative
    probability reaches [u]; the last cumulative value counts as 1. *)
Fixpoint search_cdf (ps : list R) (acc u : R) : nat :=
  match ps with
  | [] => 0%nat
  | p :: ps' =>
      match ps' with
      | [] => if Rlt_dec 1 u then 1%nat else 0%nat
      | _ :: _ => if Rlt_dec (acc + p) u then S (search_cdf ps' (acc + p) u) else 0%nat
      end
  end.

(** [dist.sample()] *)
Definition sample (d : Distribution) (g : generator) : generator * result tensor :=
  match d with
  | Categorical logits _ =>
      let k := last (shape logits) 0%nat in
      let b := removelast (shape logits) in
      if (k =? 0)%nat then (g, Raise SamplingError)
      else
        (advance g (numel b),
         Ok (mkTensor b
               (zip_with (fun row u => INR (search_cdf (softmax row) 0 u))
                  (chunks (numel b) k (data logits))
                  (draws (uniform g) g (numel b)))))
  | Normal loc scale _ =>
      (advance g (numel (shape loc)),
       Ok (mkTensor (shape loc)
             (zip_with (fun ms eps => fst ms + snd ms * eps)
                (combine (data loc) (data scale))
                (draws (gaussian g) g (numel (shape loc))))))
  end.

(** *** [nn.MSELoss] (mean reduction): the arguments are broadcast against
    each other, then the squared differences are averaged. *)
Definition mse_loss (input target : tensor) : result R :=
  d <- broadcast_op sq_diff input target ;;
  Ok (mean d).

(** *** [optim.Adam] with its default hyper-parameters, over the flattened
    parameters it was given. *)
Record Adam : Type :=
  mkAdam { lr : R; step_count : nat; exp_avg : list R; exp_avg_sq : list R }.

Definition beta1 : R := 9 / 10.
Definition beta2 : R := 999 / 1000.
Definition eps : R := 1 / 100000000.

Definition new_Adam (n : nat) (learning_rate : R) : result Adam :=
  if Rlt_dec learning_rate 0 then Raise ValueError
  else Ok (mkAdam learning_rate 0 (repeat 0 n) (repeat 0 n)).

Definition adam_param (step_size bc2 : R) (p : R) (mv : R * R) : R :=
  p - step_size * (fst mv / (sqrt (snd mv) / sqrt bc2 + eps)).

(** One [optimizer.step()] on parameters [theta] with gradient [g]. *)
Definition adam_step (o : Adam) (theta g : list R) : Adam * list R :=
  let t := S (step_count o) in
  let m := zip_with (fun m gi => beta1 * m + (1 - beta1) * gi) (exp_avg o) g in
  let v := zip_with (fun v gi => beta2 * v + (1 - beta2) * (gi * gi)) (exp_avg_sq o) g in
  let bc1 := 1 - beta1 ^ t in
  let bc2 := 1 - beta2 ^ t in
  (mkAdam (lr o) t m v,
   zip_with (adam_param (lr o / bc1) bc2) theta (combine m v)).

(** *** Parameters as one flat vector, and loading such a vector back *)

Definition flatten (ts : list tensor) : list R := concat (map data ts).

Definition load_tensor (t : tensor) (theta : list R) : tensor * list R :=
  (mkTensor (shape t) (firstn (length (data t)) theta),
   skipn (length (data t)) theta).

Definition Linear_parameters (l : Linear) : list tensor := [weight l; bias l].

Definition load_Linear (l : Linear) (theta : list R) : Linear * list R :=
  let (w, theta1) := load_tensor (weight l) theta in
  let (b, theta2) := load_tensor (bias l) theta1 in
  (mkLinear w b, theta2).

(** Gradient of a scalar function of the parameters: autograd is taken as
    an oracle for the partial derivatives, [is_gradient] says when a vector
    is the gradient in the sense of real analysis. *)
Definition autograd : Type := (list R -> R) -> list R -> nat -> R.

Definition gradient (partial : autograd) (L : list R -> R) (theta : list R) : list R :=
  map (partial L theta) (seq 0 (length theta)).

Definition set_nth (i : nat) (x : R) (theta : list R) : list R :=
  firstn i theta ++ x :: skipn (S i) theta.

Definition is_gradient (L : list R -> R) (theta g : list R) : Prop :=
  length g = length theta /\
  forall i, (i < length theta)%nat ->
    derivable_pt_lim (fun x => L (set_nth i x theta)) (nth i theta 0) (nth i g 0).

End Torch.

Import Torch.

(** ** [cs285.infrastructure.pytorch_util] ([ptu]) *)

Module Ptu.

(** Modelled from the spec: [ptu.from_numpy] is not among the sources;
    numeric data crosses the boundary as plain arrays, so the conversion
    keeps shape and values and changes the kind of object. *)
Definition from_numpy (a : ndarray) : tensor := mkTensor (nd_shape a) (nd_data a).

(** Modelled from the spec: [ptu.to_numpy] is not among the sources; it is
    the conversion back, to a plain array outside the differentiation
    graph. *)
Definition to_numpy (t : tensor) : ndarray := mkArray (shape t) (data t).

(** Modelled from the spec: the network [ptu.build_mlp] returns is a stack
    of affine transforms with a non-linear activation after each of the
    hidden ones, followed by the affine output layer. *)
Record mlp : Type := mkMlp { hidden : list Linear; output : Linear }.

Section Forward.
Variable activation : R -> R.

(** Modelled from the spec: the hidden part of the stack, each affine
    transform followed by the activation. *)
Fixpoint hidden_forward (ls : list Linear) (x : tensor) : result tensor :=
  match ls with
  | [] => Ok x
  | l :: ls' =>
      y <- Linear_forward l x ;;
      hidden_forward ls' (map_tensor activation y)
  end.

(** Modelled from the spec: calling the network [ptu.build_mlp] returned. *)
Definition mlp_forward (m : mlp) (x : tensor) : result tensor :=
  h <- hidden_forward (hidden m) x ;;
  Linear_forward (output m) h.
End Forward.

Definition layers (m : mlp) : list Linear := hidden m ++ [output m].

(** [net.parameters()]: weight and bias of every layer, in order. *)
Definition mlp_parameters (m : mlp) : list tensor := flat_map Linear_parameters (layers m).

Fixpoint load_layers (ls : list Linear) (theta : list R) : list Linear * list R :=
  match ls with
  | [] => ([], theta)
  | l :: ls' =>
      let (l1, theta1) := load_Linear l theta in
      let (ls1, theta2) := load_layers ls' theta1 in
      (l1 :: ls1, theta2)
  end.

Definition load_mlp (m : mlp) (theta : list R) : mlp * list R :=
  let (hs, theta1) := load_layers (hidden m) theta in
  let (o, theta2) := load_Linear (output m) theta1 in
  (mkMlp hs o, theta2).

(** The initial weights are random in the code; here layer [k] takes them
    from [winit k] and [binit k]. *)
Section Build.
Variables winit binit : nat -> nat -> R.

(** [nn.Linear(i, o)] as layer [k]: a weight of shape [o x i] and a bias of
    shape [o]; a negative size cannot be allocated, a size of zero can. *)
Definition new_Linear (k : nat) (i o : Z) : result Linear :=
  if ((i <? 0) || (o <? 0))%Z then Raise AllocError
  else
    let i' := Z.to_nat i in
    let o' := Z.to_nat o in
    Ok (mkLinear (mkTensor [o'; i'] (map (winit k) (seq 0 (o' * i'))))
                 (mkTensor [o'] (map (binit k) (seq 0 o')))).

(** Modelled from the spec: the [n] hidden layers of width [size], [k]
    counting the layers built so far; the width of the last one is
    returned with them. *)
Fixpoint build_hidden (n k : nat) (in_size size : Z) : result (list Linear * Z) :=
  match n with
  | O => Ok ([], in_size)
  | S n' =>
      l <- new_Linear k in_size size ;;
      r <- build_hidden n' (S k) size size ;;
      Ok (l :: fst r, snd r)
  end.

(** Modelled from the spec: [ptu.build_mlp(input_size, output_size,
    n_layers, size)] is not among the sources.  It stacks [n_layers] hidden
    layers of width [size] and an output layer of width [output_size]. *)
Definition build_mlp (input_size output_size n_layers size : Z) : result mlp :=
  r <- build_hidden (Z.to_nat n_layers) 0 input_size size ;;
  o <- new_Linear (Z.to_nat n_layers) (snd r) output_size ;;
  Ok (mkMlp (fst r) o).
End Build.

End Ptu.

Import Ptu.

(** The type of [ptu.build_mlp]: input size, output size, number of hidden
    layers, hidden width. *)
Definition builder : Type := Z -> Z -> Z -> Z -> result mlp.

(** [torch.zeros(n)] *)
Definition torch_zeros (n : Z) : result tensor :=
  if (n <? 0)%Z then Raise AllocError
  else Ok (mkTensor [Z.to_nat n] (repeat 0 (Z.to_nat n))).

(** The diagnostics both updates return: a dictionary from names to arrays. *)
Definition dict : Type := list (string * ndarray).

Definition scalar (x : R) : tensor := mkTensor [] [x].

(** ** [cs285/networks/policies.py] *)

Module Policies.

(** The state of a policy object.  An attribute the constructor did not set
    is [None]; [grad] holds the [.grad] of the parameters, flattened in the
    order the optimizer received them ([None] after [zero_grad]). *)
Record MLPPolicy : Type := mkPolicy {
  discrete : bool;
  logits_net : option mlp;
  mean_net : option mlp;
  logstd : option tensor;
  grad : option (list R);
  optimizer : Adam
}.

(** The two classes of the file; [update] is dispatched on the class. *)
Inductive policy_class : Type := MLPPolicy_class | MLPPolicyPG_class.

Definition total_numel (ts : list tensor) : nat := length (flatten ts).

Section Backend.
Variable activation : R -> R.
Variable build_mlp : builder.
Variable partial : autograd.

(** [MLPPolicy.__init__] *)
Definition init (ac_dim ob_dim : Z) (discrete : bool)
           (n_layers layer_size : Z) (learning_rate : R) : result MLPPolicy :=
  if discrete then
    net <- build_mlp ob_dim ac_dim n_layers layer_size ;;
    opt <- new_Adam (total_numel (mlp_parameters net)) learning_rate ;;
    Ok (mkPolicy true (Some net) None None None opt)
  else
    net <- build_mlp ob_dim ac_dim n_layers layer_size ;;
    ls <- torch_zeros ac_dim ;;
    opt <- new_Adam (total_numel (ls :: mlp_parameters net)) learning_rate ;;
    Ok (mkPolicy false None (Some net) (Some ls) None opt).

(** The parameters the optimizer was given, in its order. *)
Definition parameters (self : MLPPolicy) : list tensor :=
  if discrete self then
    match logits_net self with
    | Some net => mlp_parameters net
    | None => []
    end
  else
    match logstd self, mean_net self with
    | Some ls, Some net => ls :: mlp_parameters net
    | _, _ => []
    end.

(** Write a flat vector of values into the parameters. *)
Definition load_parameters (self : MLPPolicy) (theta : list R) : MLPPolicy :=
  if discrete self then
    match logits_net self with
    | Some net =>
        mkPolicy (discrete self) (Some (fst (load_mlp net theta))) (mean_net self)
                 (logstd self) (grad self) (optimizer self)
    | None => self
    end
  else
    match logstd self, mean_net self with
    | Some ls, Some net =>
        let (ls', theta1) := load_tensor ls theta in
        mkPolicy (discrete self) (logits_net self) (Some (fst (load_mlp net theta1)))
                 (Some ls') (grad self) (optimizer self)
    | _, _ => self
    end.

(** [MLPPolicy.forward]; [grad_enabled] is the gradient mode it runs in. *)
Definition forward (grad_enabled : bool) (self : MLPPolicy) (obs : tensor)
  : result Distribution :=
  if discrete self then
    match logits_net self with
    | None => Raise AttributeError
    | Some net =>
        probs <- mlp_forward activation net obs ;;
        new_Categorical probs grad_enabled
    end
  else
    match mean_net self, logstd self with
    | Some net, Some ls =>
        means <- mlp_forward activation net obs ;;
        let std := map_tensor exp ls in
        new_Normal means std grad_enabled
    | _, _ => Raise AttributeError
    end.

(** [MLPPolicy.get_action], decorated with [torch.no_grad()]. *)
Definition get_action (self : MLPPolicy) (gen : generator) (obs : ndarray)
  : MLPPolicy * generator * result ndarray :=
  let obs := from_numpy obs in
  match forward false self obs with
  | Raise e => (self, gen, Raise e)
  | Ok dist =>
      let (gen', action) := sample dist gen in
      (self, gen', a <- action ;; Ok (to_numpy a))
  end.

(** [MLPPolicy.update] *)
Definition MLPPolicy_update (self : MLPPolicy) (obs actions advantages : ndarray)
  : MLPPolicy * result dict :=
  (self, Raise NotImplementedError).

(** [optimizer.zero_grad()] *)
Definition zero_grad (self : MLPPolicy) : MLPPolicy :=
  mkPolicy (discrete self) (logits_net self) (mean_net self) (logstd self)
           None (optimizer self).

(** Lines 108-115 of [MLPPolicyPG.update]: the loss of the batch. *)
Definition pg_loss (self : MLPPolicy) (obs actions advantages : tensor) : result R :=
  dists <- forward true self obs ;;
  log_probs <- log_prob dists actions ;;
  weighted <- mul log_probs (unsqueeze_last advantages) ;;
  Ok (neg (mean weighted)).

(** The loss as a function of the parameter values. *)
Definition loss_fn (self : MLPPolicy) (obs actions advantages : tensor)
           (theta : list R) : R :=
  match pg_loss (load_parameters self theta) obs actions advantages with
  | Ok l => l
  | Raise _ => 0
  end.

(** [loss.backward()]: gradients are accumulated into [.grad]. *)
Definition backward (self : MLPPolicy) (L : list R -> R) : MLPPolicy :=
  let g := gradient partial L (flatten (parameters self)) in
  mkPolicy (discrete self) (logits_net self) (mean_net self) (logstd self)
           (Some (match grad self with
                  | None => g
                  | Some g0 => zip_with Rplus g0 g
                  end))
           (optimizer self).

(** [self.optimizer.step()] *)
Definition optimizer_step (self : MLPPolicy) : MLPPolicy :=
  match grad self with
  | None => self
  | Some g =>
      let (opt, theta) := adam_step (optimizer self) (flatten (parameters self)) g in
      let self' := load_parameters self theta in
      mkPolicy (discrete self') (logits_net self') (mean_net self') (logstd self')
               (grad self') opt
  end.

(** [MLPPolicyPG.update] *)
Definition MLPPolicyPG_update (self : MLPPolicy) (obs actions advantages : ndarray)
  : MLPPolicy * result dict :=
  match nth_error (nd_shape obs) 1 with
  | None => (self, Raise IndexError)
  | Some N =>
      let obs := from_numpy obs in
      let actions := from_numpy actions in
      let advantages := from_numpy advantages in
      let self1 := zero_grad self in
      match pg_loss self1 obs actions advantages with
      | Raise e => (self1, Raise e)
      | Ok loss =>
          let self2 := backward self1 (loss_fn self1 obs actions advantages) in
          let self3 := optimizer_step self2 in
          (self3, Ok [("Actor Loss"%string, to_numpy (scalar loss))])
      end
  end.

(** Method resolution of [update]. *)
Definition update (cls : policy_class) : MLPPolicy -> ndarray -> ndarray -> ndarray
                                         -> MLPPolicy * result dict :=
  match cls with
  | MLPPolicy_class => MLPPolicy_update
  | MLPPolicyPG_class => MLPPolicyPG_update
  end.
End Backend.

End Policies.

(** ** [cs285/networks/critics.py] *)

Module Critics.

Record ValueCritic : Type := mkCritic {
  network : mlp;
  grad : option (list R);
  optimizer : Adam
}.

Section Backend.
Variable activation : R -> R.
Variable build_mlp : builder.
Variable partial : autograd.

(** [ValueCritic.__init__] *)
Definition init (ob_dim n_layers layer_size : Z) (learning_rate : R)
  : result ValueCritic :=
  net <- build_mlp ob_dim 1%Z n_layers layer_size ;;
  opt <- new_Adam (Policies.total_numel (mlp_parameters net)) learning_rate ;;
  Ok (mkCritic net None opt).

Definition parameters (self : ValueCritic) : list tensor :=
  mlp_parameters (network self).

Definition load_parameters (self : ValueCritic) (theta : list R) : ValueCritic :=
  mkCritic (fst (load_mlp (network self) theta)) (grad self) (optimizer self).

(** [ValueCritic.forward] *)
Definition forward (self : ValueCritic) (obs : tensor) : result tensor :=
  mlp_forward activation (network self) obs.

Definition zero_grad (self : ValueCritic) : ValueCritic :=
  mkCritic (network self) None (optimizer self).

(** Lines 49-52 of [ValueCritic.update]. *)
Definition critic_loss (self : ValueCritic) (obs q_values : tensor) : result R :=
  y <- forward self obs ;;
  mse_loss y q_values.

Definition loss_fn (self : ValueCritic) (obs q_values : tensor) (theta : list R) : R :=
  match critic_loss (load_parameters self theta) obs q_values with
  | Ok l => l
  | Raise _ => 0
  end.

Definition backward (self : ValueCritic) (L : list R -> R) : ValueCritic :=
  let g := gradient partial L (flatten (parameters self)) in
  mkCritic (network self)
           (Some (match grad self with
                  | None => g
                  | Some g0 => zip_with Rplus g0 g
                  end))
           (optimizer self).

Definition optimizer_step (self : ValueCritic) : ValueCritic :=
  match grad self with
  | None => self
  | Some g =>
      let (opt, theta) := adam_step (optimizer self) (flatten (parameters self)) g in
      mkCritic (network (load_parameters self theta)) (grad self) opt
  end.

(** [ValueCritic.update] *)
Definition update (self : ValueCritic) (obs q_values : ndarray)
  : ValueCritic * result dict :=
  let self1 := zero_grad self in
  let obs := from_numpy obs in
  let q_values := from_numpy q_values in
  match critic_loss self1 obs q_values with
  | Raise e => (self1, Raise e)
  | Ok loss =>
      let self2 := backward self1 (loss_fn self1 obs q_values) in
      let self3 := optimizer_step self2 in
      (self3, Ok [("Baseline Loss"%string, to_numpy (scalar loss))])
  end.
End Backend.

End Critics.

(** ** Reference quantities, in the specification's words *)

Module Reference.

(** The total log-probability of each of the [n] examples of a batch: the
    log-probabilities of one example are summed over the action
    dimensions. *)
Definition per_example (n : nat) (t : tensor) : list R :=
  map sum (chunks n (numel (shape t) / n) (data t)).

(** The policy-gradient surrogate: the negative mean, over the batch, of
    (log-probability of the taken action) x (advantage). *)
Definition surrogate (log_probs advantages : list R) : R :=
  - (sum (zip_with Rmult log_probs advantages) / INR (length log_probs)).

(** The mean squared error with one term per observation. *)
Definition mean_squared_error (predictions targets : list R) : R :=
  sum (zip_with sq_diff predictions targets) / INR (length predictions).

End Reference.

(** ** Well-formed networks and objects *)

(** The widths of consecutive layers agree: fed rows of width [i], the
    layers produce rows of the width returned. *)
Fixpoint chain (i : nat) (ls : list Linear) : option nat :=
  match ls with
  | [] => Some i
  | l :: ls' => if (in_features l =? i)%nat then chain (out_features l) ls' else None
  end.

Definition well_shaped (ob ac : nat) (m : mlp) : Prop :=
  chain ob (layers m) = Some ac.

(** A builder that returns networks of the sizes it was asked for. *)
Definition builder_ok (build : builder) : Prop :=
  forall i o n s m, build i o n s = Ok m -> well_shaped (Z.to_nat i) (Z.to_nat o) m.


Definition all_zero (l : list R) : Prop := Forall (fun x => x = 0) l.

(** The optimizer keeps one first and one second moment per scalar
    parameter, and every parameter holds as many values as its shape says. *)
Definition wf_policy (self : Policies.MLPPolicy) : Prop :=
  Forall wf_tensor (Policies.parameters self) /\
  length (exp_avg (Policies.optimizer self)) = Policies.total_numel (Policies.parameters self) /\
  length (exp_avg_sq (Policies.optimizer self)) = Policies.total_numel (Policies.parameters self).

(** Which of the optional attributes an object owns. *)
Definition owns {A : Type} (o : option A) : bool :=
  match o with Some _ => true | None => false end.

(** The attributes a policy owns, as three booleans. *)
Definition ownership (self : Policies.MLPPolicy) : bool * bool * bool :=
  (owns (Policies.logits_net self), owns (Policies.mean_net self),
   owns (Policies.logstd self)).

(** The state after the three effects of a successful update: [zero_grad],
    [backward] on the loss function [L], and the optimizer step. *)
Definition stepped_policy (partial : autograd) (self : Policies.MLPPolicy)
           (L : list R -> R) : Policies.MLPPolicy :=
  Policies.optimizer_step (Policies.backward partial (Policies.zero_grad self) L).

(** The number of values each parameter holds. *)
Definition sizes (ts : list tensor) : list nat := map (fun t => length (data t)) ts.

(** An autograd that differentiates by the symmetric difference quotient;
    it is exact on functions that are at most quadratic in each parameter. *)
Definition central_difference : autograd :=
  fun L theta i =>
    (L (set_nth i (nth i theta 0 + 1) theta) - L (set_nth i (nth i theta 0 - 1) theta)) / 2.

(** ** Concrete networks and batches *)

Module Examples.

Definition fresh_adam (n : nat) : Adam := mkAdam (1 / 100) 0 (repeat 0 n) (repeat 0 n).

(** A discrete policy over two actions for one-dimensional observations,
    without hidden layers: the logits of observation [x] are [(0, x)]. *)
Definition two_action_net : mlp :=
  mkMlp [] (mkLinear (mkTensor [2; 1]%nat [0; 1]) (mkTensor [2%nat] [0; 0])).

Definition two_action_policy : Policies.MLPPolicy :=
  Policies.mkPolicy true (Some two_action_net) None None None (fresh_adam 4).

(** The same networks in an object that stores gradients and whose
    optimizer holds other moments. *)
Definition two_action_policy_trained : Policies.MLPPolicy :=
  Policies.mkPolicy true (Some two_action_net) None None (Some [1; 1; 1; 1])
    (mkAdam (1 / 100) 1 [1 / 10; 1 / 10; 1 / 10; 1 / 10]
            [1 / 1000; 1 / 1000; 1 / 1000; 1 / 1000]).

Definition single_obs : ndarray := mkArray [1%nat] [0].
Definition obs_0_1 : ndarray := mkArray [2; 1]%nat [0; 1].
Definition actions_0_0 : ndarray := mkArray [2%nat] [0; 0].
Definition advantages_1_m1 : ndarray := mkArray [2%nat] [1; -1].

(** Three observations against two advantages. *)
Definition obs_0_1_2 : ndarray := mkArray [3; 1]%nat [0; 1; 2].
Definition advantages_1_1 : ndarray := mkArray [2%nat] [1; 1].

(** A continuous policy with one action dimension: mean [0], log-std [0]. *)
Definition unit_normal_net : mlp :=
  mkMlp [] (mkLinear (mkTensor [1; 1]%nat [0]) (mkTensor [1%nat] [0])).

Definition unit_normal_policy : Policies.MLPPolicy :=
  Policies.mkPolicy false None (Some unit_normal_net) (Some (mkTensor [1%nat] [0]))
                    None (fresh_adam 3).

(** One example whose action is the mean of the policy. *)
Definition obs_zero : ndarray := mkArray [1; 1]%nat [0].
Definition action_zero : ndarray := mkArray [1; 1]%nat [0].
Definition advantage_one : ndarray := mkArray [1%nat] [1].
Definition advantage_zero : ndarray := mkArray [1%nat] [0].

(** The value of a parameter that was [0] after a first Adam step with
    gradient [g]. *)
Definition moved (g : R) : R :=
  0 - 1 / 100 / (1 - (9 / 10) ^ 1)
      * ((9 / 10 * 0 + (1 - 9 / 10) * g)
         / (sqrt (999 / 1000 * 0 + (1 - 999 / 1000) * (g * g))
            / sqrt (1 - (999 / 1000) ^ 1) + 1 / 100000000)).

(** [unit_normal_policy] after one update on that example with advantage
    [1]: the gradient was [(1, 0, 0)]. *)
Definition unit_normal_policy_updated : Policies.MLPPolicy :=
  Policies.mkPolicy false None
    (Some (mkMlp [] (mkLinear (mkTensor [1; 1]%nat [moved 0]) (mkTensor [1%nat] [moved 0]))))
    (Some (mkTensor [1%nat] [moved 1]))
    (Some [1; 0; 0])
    (mkAdam (1 / 100) 1
       [9 / 10 * 0 + (1 - 9 / 10) * 1; 9 / 10 * 0 + (1 - 9 / 10) * 0;
        9 / 10 * 0 + (1 - 9 / 10) * 0]
       [999 / 1000 * 0 + (1 - 999 / 1000) * (1 * 1);
        999 / 1000 * 0 + (1 - 999 / 1000) * (0 * 0);
        999 / 1000 * 0 + (1 - 999 / 1000) * (0 * 0)]).

Definition obs3 : ndarray := mkArray [3; 1]%nat [0; 0; 0].
Definition actions3 : ndarray := mkArray [3; 1]%nat [0; 0; 0].

(** A critic without hidden layers predicting its observation: [y = x]. *)
Definition identity_net : mlp :=
  mkMlp [] (mkLinear (mkTensor [1; 1]%nat [1]) (mkTensor [1%nat] [0])).

Definition identity_critic : Critics.ValueCritic :=
  Critics.mkCritic identity_net None (fresh_adam 2).

Definition obs_0_2 : ndarray := mkArray [2; 1]%nat [0; 2].
Definition targets_rank1 : ndarray := mkArray [2%nat] [0; 2].
Definition targets_column : ndarray := mkArray [2; 1]%nat [0; 2].
Definition targets3 : ndarray := mkArray [3%nat] [0; 1; 2].
Definition targets_column3 : ndarray := mkArray [3; 1]%nat [0; 1; 2].

(** The builder of [Ptu] with all initial weights zero. *)
Definition zero_builder : builder := build_mlp (fun _ _ => 0) (fun _ _ => 0).

Definition zero_generator : generator := mkGenerator (fun _ => 0) (fun _ => 0) 0.

End Examples.

(** ** Further notions used in the properties below *)

Definition wf_critic (self : Critics.ValueCritic) : Prop :=
  Forall wf_tensor (Critics.parameters self) /\
  length (exp_avg (Critics.optimizer self)) = Policies.total_numel (Critics.parameters self) /\
  length (exp_avg_sq (Critics.optimizer self)) = Policies.total_numel (Critics.parameters self).

Definition stepped_critic (partial : autograd) (self : Critics.ValueCritic)
           (L : list R -> R) : Critics.ValueCritic :=
  Critics.optimizer_step (Critics.backward partial (Critics.zero_grad self) L).

(** The same object with other gradients stored in [.grad]. *)
Definition policy_with_grad (self : Policies.MLPPolicy) (g : option (list R))
  : Policies.MLPPolicy :=
  Policies.mkPolicy (Policies.discrete self) (Policies.logits_net self)
                    (Policies.mean_net self) (Policies.logstd self) g
                    (Policies.optimizer self).

Definition critic_with_grad (self : Critics.ValueCritic) (g : option (list R))
  : Critics.ValueCritic :=
  Critics.mkCritic (Critics.network self) g (Critics.optimizer self).

(** An optimizer that has not taken a step yet. *)
Definition fresh_optimizer (o : Adam) : Prop :=
  step_count o = 0%nat /\ all_zero (exp_avg o) /\ all_zero (exp_avg_sq o).

(** One row through a network: what [mlp_forward] does to each row of a
    batch. *)
Definition mlp_row (activation : R -> R) (m : mlp) (row : list R) : list R :=
  affine (output m)
         (fold_left (fun r l => map activation (affine l r)) (hidden m) row).


(** One observation of three coordinates, for networks that expect one. *)
Definition obs_wide : ndarray := mkArray [3%nat] [0; 1; 2].

(** Three advantages. *)
Definition advantages3 : ndarray := mkArray [3%nat] [0; 1; 2].

(** * Properties *)

(** ** Evaluation on concrete inputs *)

Ltac ev :=
  cbv - [Rplus Rminus Rmult Rdiv Ropp Rinv exp ln sqrt PI INR IZR pow tanh
         Int_part Req_dec_T Rlt_dec Rle_dec index_of].

Lemma index_of_IZR (k : nat) (z : Z) :
  (0 <= z < Z.of_nat k)%Z -> index_of k (IZR z) = Some (Z.to_nat z).
Proof.
  intros H. unfold index_of.
  assert (E : Int_part (IZR z) = z).
  { symmetry. apply Int_part_spec. lra. }
  rewrite E. destruct (Req_dec_T (IZR z) (IZR z)) as [_|n]; [|congruence].
  replace ((0 <=? z)%Z && (z <? Z.of_nat k)%Z) with true; auto.
  symmetry. apply andb_true_intro. split; [apply Z.leb_le | apply Z.ltb_lt]; lia.
Qed.

(** ** Blocks, shapes and broadcasting *)

Lemma chunks_length {A : Type} (n k : nat) (d : list A) :
  length (chunks n k d) = n.
Proof. revert d. induction n as [|n IH]; intros d; simpl; [|rewrite IH]; reflexivity. Qed.

Lemma chunks_concat {A : Type} (n k : nat) (d : list A) :
  length d = (n * k)%nat -> concat (chunks n k d) = d.
Proof.
  revert d. induction n as [|n IH]; intros d H; simpl in *.
  - destruct d; [reflexivity | discriminate].
  - rewrite IH; [apply firstn_skipn|]. rewrite length_skipn. lia.
Qed.

Lemma chunks_Forall_length {A : Type} (n k : nat) (d : list A) :
  length d = (n * k)%nat -> Forall (fun c => length c = k) (chunks n k d).
Proof.
  revert d. induction n as [|n IH]; intros d H; simpl in *; constructor.
  - rewrite length_firstn. lia.
  - apply IH. rewrite length_skipn. lia.
Qed.

Lemma numel_app (s t : list nat) : numel (s ++ t) = (numel s * numel t)%nat.
Proof. induction s as [|a s IH]; simpl; [lia | rewrite IH; lia]. Qed.

Lemma pad_shape_same (s : list nat) : pad_shape (length s) s = s.
Proof. unfold pad_shape. rewrite Nat.sub_diag. reflexivity. Qed.

Lemma broadcast_dims_same (s : list nat) : broadcast_dims s s = Some s.
Proof.
  induction s as [|a s IH]; simpl; [reflexivity|].
  rewrite IH, Nat.eqb_refl. reflexivity.
Qed.

Lemma broadcast_shapes_same (s : list nat) : broadcast_shapes s s = Some s.
Proof.
  unfold broadcast_shapes. rewrite Nat.max_id, pad_shape_same.
  apply broadcast_dims_same.
Qed.

Lemma expand_same {A : Type} (s : list nat) (d : list A) :
  length d = numel s -> expand s s d = d.
Proof.
  revert d. induction s as [|a s IH]; intros d H; simpl; [reflexivity|].
  rewrite Nat.eqb_refl. simpl in H.
  rewrite <- (chunks_concat a (numel s) d H) at 2. f_equal.
  rewrite <- (map_id (chunks a (numel s) d)) at 2.
  apply map_ext_in. intros c Hc.
  apply IH. pose proof (chunks_Forall_length a (numel s) d H) as F.
  rewrite Forall_forall in F. apply F, Hc.
Qed.

Lemma expand_to_same {A : Type} (s : list nat) (d : list A) :
  length d = numel s -> expand_to s s d = d.
Proof. intros H. unfold expand_to. rewrite pad_shape_same. apply expand_same, H. Qed.

(** An operation on two tensors of one shape acts element by element. *)
Lemma broadcast_op_same_shape (f : R -> R -> R) (x y : tensor) :
  shape y = shape x -> wf_tensor x -> wf_tensor y ->
  broadcast_op f x y = Ok (mkTensor (shape x) (zip_with f (data x) (data y))).
Proof.
  intros Hs Hx Hy. unfold broadcast_op. rewrite Hs, broadcast_shapes_same.
  rewrite !expand_to_same; [reflexivity | |assumption].
  rewrite <- Hs. exact Hy.
Qed.

(** *** Affine layers keep the leading dimensions *)

Lemma affine_length (l : Linear) (x : list R) : length (affine l x) = out_features l.
Proof. unfold affine. rewrite length_map, length_seq. reflexivity. Qed.

Lemma concat_length_const {A : Type} (k : nat) (ls : list (list A)) :
  Forall (fun c => length c = k) ls -> length (concat ls) = (length ls * k)%nat.
Proof.
  induction 1 as [|c ls Hc _ IH]; simpl; [reflexivity|].
  rewrite length_app, IH, Hc. reflexivity.
Qed.

Lemma Linear_forward_shape (l : Linear) (x : tensor) (lead : list nat) :
  shape x = lead ++ [in_features l] ->
  exists y, Linear_forward l x = Ok y
            /\ shape y = lead ++ [out_features l] /\ wf_tensor y.
Proof.
  intros Hs. unfold Linear_forward. rewrite Hs.
  destruct (lead ++ [in_features l]) eqn:E; [destruct lead; discriminate|].
  rewrite <- E, removelast_last, last_last, Nat.eqb_refl.
  eexists. split; [reflexivity|]. split; [reflexivity|].
  unfold wf_tensor. simpl.
  rewrite (concat_length_const (out_features l)).
  - rewrite length_map, chunks_length, numel_app. simpl. lia.
  - apply Forall_map, Forall_forall. intros c _. apply affine_length.
Qed.

Section Networks.
Variable activation : R -> R.

Lemma hidden_forward_shape (ls : list Linear) (x : tensor) (lead : list nat) (i o : nat) :
  chain i ls = Some o -> shape x = lead ++ [i] -> wf_tensor x ->
  exists y, hidden_forward activation ls x = Ok y
            /\ shape y = lead ++ [o] /\ wf_tensor y.
Proof.
  revert x i. induction ls as [|l ls IH]; intros x i Hc Hs Hw; simpl in *.
  - injection Hc as <-. eauto.
  - destruct (Nat.eqb_spec (in_features l) i) as [E|]; [subst i|discriminate].
    destruct (Linear_forward_shape l x lead Hs) as (y & -> & Hy & Hwy). simpl.
    apply (IH (map_tensor activation y) (out_features l) Hc).
    + exact Hy.
    + unfold wf_tensor in *. simpl. rewrite length_map. exact Hwy.
Qed.

Lemma chain_app (i : nat) (ls : list Linear) (l : Linear) (o : nat) :
  chain i (ls ++ [l]) = Some o ->
  exists k, chain i ls = Some k /\ in_features l = k /\ out_features l = o.
Proof.
  revert i. induction ls as [|h ls IH]; intros i H; simpl in *.
  - destruct (Nat.eqb_spec (in_features l) i); [|discriminate].
    injection H as <-. eauto.
  - destruct (in_features h =? i)%nat; [|discriminate]. apply IH, H.
Qed.

(** A well-shaped network maps a batch of rows of width [ob] to a batch of
    rows of width [ac], keeping the leading dimensions. *)
Lemma mlp_forward_shape (m : mlp) (x : tensor) (lead : list nat) (ob ac : nat) :
  well_shaped ob ac m -> shape x = lead ++ [ob] -> wf_tensor x ->
  exists y, mlp_forward activation m x = Ok y
            /\ shape y = lead ++ [ac] /\ wf_tensor y.
Proof.
  intros Hm Hs Hw. unfold well_shaped, layers in Hm.
  apply chain_app in Hm as (k & Hc & Hi & Ho).
  destruct (hidden_forward_shape (hidden m) x lead ob k Hc Hs Hw) as (h & Hh & Hsh & _).
  unfold mlp_forward. rewrite Hh. simpl.
  rewrite <- Hi in Hsh. rewrite <- Ho. apply Linear_forward_shape, Hsh.
Qed.
End Networks.

(** ** Loading a parameter vector *)

Lemma firstn_exact {A : Type} (a b : list A) : firstn (length a) (a ++ b) = a.
Proof. induction a as [|x a IH]; simpl; [destruct b; reflexivity | rewrite IH; reflexivity]. Qed.

Lemma skipn_exact {A : Type} (a b : list A) : skipn (length a) (a ++ b) = b.
Proof. induction a as [|x a IH]; simpl; [reflexivity | exact IH]. Qed.

Lemma load_tensor_flat (t : tensor) (rest : list R) :
  load_tensor t (data t ++ rest) = (t, rest).
Proof.
  unfold load_tensor. rewrite firstn_exact, skipn_exact. destruct t. reflexivity.
Qed.

Lemma load_Linear_flat (l : Linear) (rest : list R) :
  load_Linear l (flatten (Linear_parameters l) ++ rest) = (l, rest).
Proof.
  unfold load_Linear, flatten. simpl concat. rewrite app_nil_r, <- app_assoc.
  rewrite load_tensor_flat, load_tensor_flat. destruct l. reflexivity.
Qed.

Lemma flatten_app (a b : list tensor) : flatten (a ++ b) = flatten a ++ flatten b.
Proof. unfold flatten. rewrite map_app, concat_app. reflexivity. Qed.

Lemma load_layers_flat (ls : list Linear) (rest : list R) :
  load_layers ls (flatten (flat_map Linear_parameters ls) ++ rest) = (ls, rest).
Proof.
  revert rest. induction ls as [|l ls IH]; intros rest; [reflexivity|].
  cbn [load_layers flat_map].
  rewrite flatten_app, <- app_assoc, load_Linear_flat, IH. reflexivity.
Qed.

Lemma load_mlp_flat (m : mlp) (rest : list R) :
  load_mlp m (flatten (mlp_parameters m) ++ rest) = (m, rest).
Proof.
  unfold load_mlp, mlp_parameters, layers.
  rewrite flat_map_app, flatten_app, <- app_assoc, load_layers_flat.
  cbn [flat_map]. rewrite app_nil_r, load_Linear_flat. destruct m. reflexivity.
Qed.

Lemma load_mlp_flat_all (m : mlp) : fst (load_mlp m (flatten (mlp_parameters m))) = m.
Proof.
  rewrite <- (app_nil_r (flatten (mlp_parameters m))), load_mlp_flat. reflexivity.
Qed.

(** Loading never changes a shape. *)

Lemma load_layers_shapes (ls : list Linear) (theta : list R) :
  map shape (flat_map Linear_parameters (fst (load_layers ls theta)))
  = map shape (flat_map Linear_parameters ls).
Proof.
  revert theta. induction ls as [|l ls IH]; intros theta; simpl; [reflexivity|].
  destruct (load_layers ls _) as [ls1 theta2] eqn:E. simpl.
  do 2 f_equal. specialize (IH (skipn (length (data (bias l)))
                                    (skipn (length (data (weight l))) theta))).
  rewrite E in IH. exact IH.
Qed.

Lemma load_mlp_shapes (m : mlp) (theta : list R) :
  map shape (mlp_parameters (fst (load_mlp m theta))) = map shape (mlp_parameters m).
Proof.
  unfold load_mlp, mlp_parameters, layers.
  destruct (load_layers (hidden m) theta) as [hs theta1] eqn:E. simpl.
  rewrite !flat_map_app, !map_app. f_equal.
  pose proof (load_layers_shapes (hidden m) theta) as H. rewrite E in H. exact H.
Qed.

(** Loading a vector that is long enough keeps the number of values of
    every parameter. *)

Lemma total_numel_sizes (ts : list tensor) :
  Policies.total_numel ts = fold_right Nat.add 0%nat (sizes ts).
Proof.
  unfold Policies.total_numel, flatten, sizes.
  induction ts as [|t ts IH]; simpl; [reflexivity|].
  rewrite length_app, IH. reflexivity.
Qed.

Lemma load_layers_sizes (ls : list Linear) (theta : list R) :
  (Policies.total_numel (flat_map Linear_parameters ls) <= length theta)%nat ->
  sizes (flat_map Linear_parameters (fst (load_layers ls theta)))
  = sizes (flat_map Linear_parameters ls)
  /\ length (snd (load_layers ls theta))
     = (length theta - Policies.total_numel (flat_map Linear_parameters ls))%nat.
Proof.
  revert theta. induction ls as [|l ls IH]; intros theta H.
  - simpl. split; [reflexivity|]. unfold Policies.total_numel. simpl. lia.
  - simpl in *. rewrite total_numel_sizes in H. simpl in H.
    rewrite <- total_numel_sizes in H.
    destruct (load_layers ls _) as [ls1 theta2] eqn:E. simpl.
    specialize (IH (skipn (length (data (bias l)))
                          (skipn (length (data (weight l))) theta))).
    rewrite E in IH. simpl in IH.
    destruct IH as [IH1 IH2]; [rewrite !length_skipn; lia|].
    split.
    + rewrite !length_firstn, !length_skipn. f_equal; [lia|]. f_equal; [lia|exact IH1].
    + rewrite IH2, !length_skipn.
      rewrite (total_numel_sizes (weight l :: bias l :: _)). simpl.
      rewrite <- total_numel_sizes. lia.
Qed.

Lemma mlp_parameters_numel (m : mlp) :
  Policies.total_numel (mlp_parameters m)
  = (Policies.total_numel (flat_map Linear_parameters (hidden m))
     + (length (data (weight (output m))) + length (data (bias (output m)))))%nat.
Proof.
  unfold mlp_parameters, layers. rewrite flat_map_app.
  unfold Policies.total_numel. rewrite flatten_app, length_app.
  f_equal. unfold flatten. simpl. rewrite !length_app. simpl. lia.
Qed.

Lemma load_mlp_sizes (m : mlp) (theta : list R) :
  (Policies.total_numel (mlp_parameters m) <= length theta)%nat ->
  sizes (mlp_parameters (fst (load_mlp m theta))) = sizes (mlp_parameters m).
Proof.
  intros H. rewrite mlp_parameters_numel in H.
  unfold load_mlp, mlp_parameters, layers.
  destruct (load_layers (hidden m) theta) as [hs theta1] eqn:E. simpl.
  destruct (load_layers_sizes (hidden m) theta) as [H1 H2]; [lia|].
  rewrite E in H1, H2. simpl in H1, H2.
  unfold sizes in *. rewrite !flat_map_app, !map_app. f_equal; [exact H1|].
  simpl. rewrite !length_firstn, !length_skipn. f_equal; [lia|]. f_equal. lia.
Qed.

(** ** The Adam step *)

Lemma zip_with_length {A B C : Type} (f : A -> B -> C) (a : list A) (b : list B) :
  length (zip_with f a b) = Nat.min (length a) (length b).
Proof. unfold zip_with. rewrite length_map, length_combine. reflexivity. Qed.

Lemma adam_step_lengths (o : Adam) (theta g : list R) (n : nat) :
  length (exp_avg o) = n -> length (exp_avg_sq o) = n ->
  length g = n -> length theta = n ->
  length (snd (adam_step o theta g)) = n
  /\ length (exp_avg (fst (adam_step o theta g))) = n
  /\ length (exp_avg_sq (fst (adam_step o theta g))) = n.
Proof.
  intros Hm Hv Hg Ht. unfold adam_step. simpl.
  rewrite !zip_with_length, length_combine, !zip_with_length. lia.
Qed.

Lemma all_zero_eq (l : list R) : all_zero l -> l = repeat 0 (length l).
Proof. induction 1 as [|x l Hx _ IH]; simpl; [reflexivity|]. rewrite Hx, <- IH. reflexivity. Qed.

Lemma first_moment_stays_zero (m g : list R) :
  all_zero m -> all_zero g ->
  all_zero (zip_with (fun mi gi => beta1 * mi + (1 - beta1) * gi) m g).
Proof.
  intros Hm. revert g. induction Hm as [|x m Hx _ IH]; intros g Hg.
  - constructor.
  - destruct Hg as [|y g Hy Hg]; [constructor|].
    unfold zip_with. simpl. constructor.
    + rewrite Hx, Hy. lra.
    + apply IH, Hg.
Qed.

Lemma adam_param_zero_moment (a b : R) (theta : list R) (mv : list (R * R)) :
  Forall (fun p => fst p = 0) mv -> (length theta <= length mv)%nat ->
  zip_with (adam_param a b) theta mv = theta.
Proof.
  intros H. revert theta. induction H as [|p mv Hp _ IH]; intros theta Hl.
  - destruct theta; [reflexivity | simpl in Hl; lia].
  - destruct theta as [|t theta]; [reflexivity|].
    unfold zip_with in *. simpl. f_equal.
    + unfold adam_param. rewrite Hp. unfold Rdiv. lra.
    + apply IH. simpl in Hl. lia.
Qed.

Lemma combine_fst_zero (m v : list R) :
  all_zero m -> Forall (fun p : R * R => fst p = 0) (combine m v).
Proof.
  intros H. revert v. induction H as [|x m Hx _ IH]; intros v; simpl; [constructor|].
  destruct v; constructor; auto.
Qed.

(** With a zero gradient and a zero first moment the step moves nothing. *)
Lemma adam_step_zero (o : Adam) (theta g : list R) :
  all_zero (exp_avg o) -> all_zero g ->
  length (exp_avg o) = length theta -> length (exp_avg_sq o) = length theta ->
  length g = length theta ->
  snd (adam_step o theta g) = theta.
Proof.
  intros Hm Hg Lm Lv Lg. unfold adam_step. simpl.
  apply adam_param_zero_moment.
  - apply combine_fst_zero, first_moment_stays_zero; assumption.
  - rewrite length_combine, !zip_with_length. lia.
Qed.

(** ** Gradients of a constant loss *)

Lemma derivable_pt_lim_pointwise_const (f : R -> R) (c x : R) :
  (forall z, f z = c) -> derivable_pt_lim f x 0.
Proof.
  intros H eps Heps. exists (mkposreal 1 Rlt_0_1). intros h Hh _.
  rewrite !H. unfold Rminus, Rdiv. rewrite Rplus_opp_r, Rmult_0_l, Rplus_opp_r, Rabs_R0.
  exact Heps.
Qed.

Lemma gradient_length (partial : autograd) (L : list R -> R) (theta : list R) :
  length (gradient partial L theta) = length theta.
Proof. unfold gradient. rewrite length_map, length_seq. reflexivity. Qed.

Lemma gradient_nth (partial : autograd) (L : list R -> R) (theta : list R) (i : nat) :
  (i < length theta)%nat -> nth i (gradient partial L theta) 0 = partial L theta i.
Proof.
  intros Hi. unfold gradient.
  rewrite (nth_indep (map (partial L theta) (seq 0 (length theta))) 0
                     (partial L theta 0%nat))
    by (rewrite length_map, length_seq; exact Hi).
  rewrite map_nth, seq_nth by exact Hi. reflexivity.
Qed.

Lemma all_zero_nth (l : list R) :
  (forall i, (i < length l)%nat -> nth i l 0 = 0) -> all_zero l.
Proof.
  induction l as [|x l IH]; intros H; constructor.
  - apply (H 0%nat). simpl. lia.
  - apply IH. intros i Hi. apply (H (S i)). simpl. lia.
Qed.

(** The gradient of a constant function is zero. *)
Lemma is_gradient_const (L : list R -> R) (c : R) (theta g : list R) :
  (forall t, L t = c) -> is_gradient L theta g -> all_zero g.
Proof.
  intros Hc [Hl Hd]. apply all_zero_nth. intros i Hi. rewrite Hl in Hi.
  apply (uniqueness_limite (fun x => L (set_nth i x theta)) (nth i theta 0)).
  - apply Hd, Hi.
  - apply derivable_pt_lim_pointwise_const with (c := c). intros z. apply Hc.
Qed.

(** The symmetric difference quotient is exact on constant functions. *)
Lemma central_difference_const (L : list R -> R) (c : R) (theta : list R) :
  (forall t, L t = c) -> is_gradient L theta (gradient central_difference L theta).
Proof.
  intros Hc. split; [apply gradient_length|]. intros i Hi.
  rewrite gradient_nth by exact Hi.
  unfold central_difference. rewrite !Hc.
  replace ((c - c) / 2) with 0 by (unfold Rdiv; lra).
  apply derivable_pt_lim_pointwise_const with (c := c). intros z. apply Hc.
Qed.

(** ** What an update of the policy touches *)

Section PolicyUpdate.
Import Policies.
Variable activation : R -> R.
Variable partial : autograd.

Lemma load_parameters_same (self : MLPPolicy) :
  load_parameters self (flatten (parameters self)) = self.
Proof.
  destruct self as [d ln mn ls gr opt]. unfold load_parameters, parameters.
  cbn [discrete logits_net mean_net logstd grad optimizer].
  destruct d.
  - destruct ln as [net|]; [|reflexivity]. rewrite load_mlp_flat_all. reflexivity.
  - destruct ls as [t|]; [|reflexivity]. destruct mn as [net|]; [|reflexivity].
    change (flatten (t :: mlp_parameters net))
      with (data t ++ flatten (mlp_parameters net)).
    rewrite load_tensor_flat, load_mlp_flat_all. reflexivity.
Qed.

Lemma load_parameters_frame (self : MLPPolicy) (theta : list R) :
  discrete (load_parameters self theta) = discrete self
  /\ ownership (load_parameters self theta) = ownership self
  /\ grad (load_parameters self theta) = grad self
  /\ optimizer (load_parameters self theta) = optimizer self
  /\ map shape (parameters (load_parameters self theta)) = map shape (parameters self).
Proof.
  destruct self as [d ln mn ls gr opt].
  unfold load_parameters, parameters, ownership. simpl.
  destruct d.
  - destruct ln as [net|]; simpl; repeat split. apply load_mlp_shapes.
  - destruct ls as [t|]; [|simpl; repeat split; reflexivity].
    destruct mn as [net|]; simpl; repeat split.
    f_equal. apply load_mlp_shapes.
Qed.

Lemma load_parameters_sizes (self : MLPPolicy) (theta : list R) :
  (total_numel (parameters self) <= length theta)%nat ->
  sizes (parameters (load_parameters self theta)) = sizes (parameters self).
Proof.
  destruct self as [d ln mn ls gr opt].
  unfold load_parameters, parameters. simpl.
  destruct d.
  - destruct ln as [net|]; simpl; [|reflexivity]. apply load_mlp_sizes.
  - destruct ls as [t|]; [|reflexivity].
    destruct mn as [net|]; simpl; [|reflexivity].
    intros H. rewrite total_numel_sizes in H. simpl in H. rewrite <- total_numel_sizes in H.
    rewrite length_firstn. f_equal; [lia|].
    apply load_mlp_sizes. rewrite length_skipn. lia.
Qed.

Local Abbreviation stepped := (stepped_policy partial).

Lemma stepped_eq (self : MLPPolicy) (L : list R -> R) :
  let theta := flatten (parameters self) in
  let r := adam_step (optimizer self) theta (gradient partial L theta) in
  let self' := load_parameters (backward partial (zero_grad self) L) (snd r) in
  stepped self L
  = mkPolicy (discrete self') (logits_net self') (mean_net self') (logstd self')
             (Some (gradient partial L theta)) (fst r).
Proof.
  unfold stepped_policy, optimizer_step.
  cbn [grad backward zero_grad].
  change (parameters (backward partial (zero_grad self) L)) with (parameters self).
  change (optimizer (backward partial (zero_grad self) L)) with (optimizer self).
  change (parameters (zero_grad self)) with (parameters self).
  destruct (adam_step _ _ _) as [opt theta'] eqn:E. cbn [fst snd].
  f_equal. apply load_parameters_frame.
Qed.

Lemma stepped_parameters (self : MLPPolicy) (L : list R -> R) :
  let theta := flatten (parameters self) in
  parameters (stepped self L)
  = parameters (load_parameters self
                  (snd (adam_step (optimizer self) theta (gradient partial L theta)))).
Proof.
  simpl. rewrite stepped_eq. simpl.
  destruct self as [d ln mn ls gr opt]. unfold load_parameters, parameters. simpl.
  destruct d.
  - destruct ln; reflexivity.
  - destruct ls; [|reflexivity]. destruct mn; reflexivity.
Qed.

Lemma stepped_frame (self : MLPPolicy) (L : list R -> R) :
  discrete (stepped self L) = discrete self
  /\ ownership (stepped self L) = ownership self
  /\ map shape (parameters (stepped self L)) = map shape (parameters self).
Proof.
  split; [|split].
  - rewrite stepped_eq. simpl.
    apply (load_parameters_frame (backward partial (zero_grad self) L)).
  - rewrite stepped_eq. unfold ownership. simpl.
    apply (load_parameters_frame (backward partial (zero_grad self) L)).
  - rewrite stepped_parameters. apply load_parameters_frame.
Qed.

(** The two outcomes of [MLPPolicyPG.update]. *)
Lemma MLPPolicyPG_update_cases (self : MLPPolicy) (obs actions advantages : ndarray) :
  let L := loss_fn activation (zero_grad self) (from_numpy obs) (from_numpy actions)
                   (from_numpy advantages) in
  (exists e, MLPPolicyPG_update activation partial self obs actions advantages
             = (self, Raise e))
  \/ (exists e, MLPPolicyPG_update activation partial self obs actions advantages
                = (zero_grad self, Raise e))
  \/ (exists loss,
         pg_loss activation (zero_grad self) (from_numpy obs) (from_numpy actions)
                 (from_numpy advantages) = Ok loss
         /\ MLPPolicyPG_update activation partial self obs actions advantages
            = (stepped self L, Ok [("Actor Loss"%string, mkArray [] [loss])])).
Proof.
  simpl. unfold MLPPolicyPG_update.
  destruct (nth_error (nd_shape obs) 1); [|left; eauto].
  destruct (pg_loss _ _ _ _ _) as [loss|e]; [|right; left; eauto].
  right. right. exists loss. split; reflexivity.
Qed.
End PolicyUpdate.

(** ** A batch whose advantages are all zero *)

Lemma Forall_firstn {A : Type} (P : A -> Prop) (n : nat) (l : list A) :
  Forall P l -> Forall P (firstn n l).
Proof.
  intros H. revert n. induction H as [|x l Hx _ IH]; intros [|n]; simpl; constructor; auto.
Qed.

Lemma Forall_skipn {A : Type} (P : A -> Prop) (n : nat) (l : list A) :
  Forall P l -> Forall P (skipn n l).
Proof.
  intros H. revert n. induction H as [|x l Hx Hl IH]; intros [|n]; simpl; auto.
Qed.

Lemma chunks_Forall {A : Type} (P : A -> Prop) (n k : nat) (d : list A) :
  Forall P d -> Forall (Forall P) (chunks n k d).
Proof.
  revert d. induction n as [|n IH]; intros d H; simpl; constructor.
  - apply Forall_firstn, H.
  - apply IH, Forall_skipn, H.
Qed.

Lemma Forall_repeat {A : Type} (P : A -> Prop) (x : A) (n : nat) :
  P x -> Forall P (repeat x n).
Proof. intros H. induction n; simpl; constructor; auto. Qed.

(** Broadcasting only repeats elements. *)
Lemma expand_Forall {A : Type} (P : A -> Prop) (s t : list nat) (d : list A) :
  Forall P d -> Forall P (expand s t d).
Proof.
  revert t d. induction s as [|a s IH]; intros t d H; simpl; [exact H|].
  destruct t as [|b t]; [exact H|].
  destruct (a =? b)%nat; apply Forall_concat.
  - apply Forall_map. eapply Forall_impl; [|apply chunks_Forall, H].
    intros c Hc. apply IH, Hc.
  - apply Forall_repeat, IH, H.
Qed.

Lemma products_with_zero (a b : list R) :
  all_zero b -> all_zero (zip_with Rmult a b).
Proof.
  intros H. revert a. induction H as [|y b Hy _ IH]; intros [|x a];
    unfold zip_with; simpl; constructor.
  - rewrite Hy. lra.
  - apply IH.
Qed.

Lemma sum_all_zero (l : list R) : all_zero l -> sum l = 0.
Proof. induction 1 as [|x l Hx _ IH]; simpl; [reflexivity|]. rewrite Hx, IH. lra. Qed.

Section ZeroAdvantages.
Import Policies.
Variable activation : R -> R.
Variable partial : autograd.

Lemma pg_loss_zero_advantages (self : MLPPolicy) (obs actions advantages : tensor) (l : R) :
  all_zero (data advantages) ->
  pg_loss activation self obs actions advantages = Ok l -> l = 0.
Proof.
  intros Hz. unfold pg_loss.
  destruct (forward activation true self obs) as [d|]; [|discriminate]. simpl.
  destruct (log_prob d actions) as [lp|]; [|discriminate]. simpl.
  unfold mul, broadcast_op.
  destruct (broadcast_shapes _ _) as [s|]; [|discriminate]. simpl.
  intros H. injection H as <-.
  unfold mean, neg. simpl. rewrite sum_all_zero.
  - unfold Rdiv. lra.
  - apply products_with_zero. unfold expand_to. apply expand_Forall, Hz.
Qed.

Lemma loss_fn_zero_advantages (self : MLPPolicy) (obs actions advantages : tensor) :
  all_zero (data advantages) ->
  forall theta, loss_fn activation self obs actions advantages theta = 0.
Proof.
  intros Hz theta. unfold loss_fn.
  destruct (pg_loss _ _ _ _ _) as [l|] eqn:E; [|reflexivity].
  apply (pg_loss_zero_advantages _ _ _ _ _ Hz E).
Qed.

(** C5, as the update behaves: when all advantages are zero the loss does
    not depend on the parameters, so its gradient is zero; if moreover the
    first-moment estimates of Adam are zero (as on a policy that has not yet
    been updated), the step leaves the networks and the log-std as they
    were, and the gradients stored by a successful call are zero. *)
Theorem zero_advantages_zero_gradient :
  forall (self : MLPPolicy) (obs actions advantages : ndarray),
    all_zero (nd_data advantages) ->
    wf_policy self ->
    all_zero (exp_avg (optimizer self)) ->
    let L := loss_fn activation (zero_grad self) (from_numpy obs) (from_numpy actions)
                     (from_numpy advantages) in
    let theta := flatten (parameters self) in
    is_gradient L theta (gradient partial L theta) ->
    let self' := fst (MLPPolicyPG_update activation partial self obs actions advantages) in
    (forall g, is_gradient L theta g -> all_zero g)
    /\ logits_net self' = logits_net self
    /\ mean_net self' = mean_net self
    /\ logstd self' = logstd self
    /\ (is_ok (snd (MLPPolicyPG_update activation partial self obs actions advantages))
        = true -> grad self' = Some (repeat 0 (length theta))).
Proof.
  intros self obs actions advantages Hz (_ & Hm & Hv) Hm0 L theta Hg self'.
  assert (HL : forall t, L t = 0) by (apply loss_fn_zero_advantages, Hz).
  assert (Hg0 : all_zero (gradient partial L theta))
    by (apply (is_gradient_const L 0 theta _ HL Hg)).
  split; [intros g; apply (is_gradient_const L 0 theta g HL)|].
  subst self'.
  destruct (MLPPolicyPG_update_cases activation partial self obs actions advantages)
    as [[e E]|[[e E]|(loss & _ & E)]]; rewrite E; simpl fst; simpl snd.
  - repeat split; try reflexivity. discriminate.
  - repeat split; try reflexivity. discriminate.
  - fold L. rewrite stepped_eq. fold theta. cbn [logits_net mean_net logstd grad].
    rewrite adam_step_zero; try assumption.
    + repeat split;
        try (change theta with (flatten (parameters (backward partial (zero_grad self) L)));
             rewrite load_parameters_same; reflexivity).
      intros _. f_equal.
      rewrite (all_zero_eq _ Hg0), gradient_length. reflexivity.
    + apply gradient_length.
Qed.
End ZeroAdvantages.

(** ** Weighting log-probabilities by unsqueezed advantages *)

Lemma chunks_singletons {A : Type} (a : list A) :
  chunks (length a) 1 a = map (fun x => [x]) a.
Proof. induction a as [|x a IH]; simpl; [|rewrite IH]; reflexivity. Qed.

Lemma expand_singleton {A : Type} (m : nat) (x : A) :
  expand [1%nat] [m] [x] = repeat x m.
Proof.
  cbn [expand]. destruct (Nat.eqb_spec 1 m) as [<-|_].
  - reflexivity.
  - clear. induction m as [|m IH]; simpl; [|rewrite IH]; reflexivity.
Qed.

(** A column of [n] values viewed at shape [n x m]: each value [m] times. *)
Lemma expand_column {A : Type} (n m : nat) (a : list A) :
  length a = n -> expand_to [n; 1%nat] [n; m] a = flat_map (fun x => repeat x m) a.
Proof.
  intros <-. unfold expand_to, pad_shape. simpl.
  rewrite Nat.eqb_refl, chunks_singletons, map_map, flat_map_concat_map.
  f_equal. apply map_ext. intros x.
  pose proof (expand_singleton m x) as H. simpl in H. exact H.
Qed.

(** A vector of [n] values viewed at shape [m x n]: the vector [m] times. *)
Lemma expand_row {A : Type} (n m : nat) (d : list A) :
  length d = n -> expand_to [n] [m; n] d = concat (repeat d m).
Proof.
  intros H.
  assert (E : expand [n] [n] d = d) by (apply expand_same; simpl; lia).
  change (expand_to [n] [m; n] d)
    with (if (1 =? m)%nat
          then concat (map (expand [n] [n]) (chunks 1 (numel [n]) d))
          else concat (repeat (expand [n] [n] d) m)).
  destruct (Nat.eqb_spec 1 m) as [<-|_].
  - cbn [chunks map concat repeat numel fold_right].
    rewrite Nat.mul_1_r, <- H, firstn_all, H, E. reflexivity.
  - rewrite E. reflexivity.
Qed.

Lemma broadcast_shapes_row_column (n : nat) :
  broadcast_shapes [n] [n; 1%nat] = Some [n; n].
Proof.
  destruct n as [|[|n]]; reflexivity.
Qed.

Lemma broadcast_shapes_matrix_column (n d : nat) :
  broadcast_shapes [n; d] [n; 1%nat] = Some [n; d].
Proof.
  unfold broadcast_shapes, pad_shape.
  destruct d as [|[|d]]; simpl; rewrite Nat.eqb_refl; reflexivity.
Qed.

Lemma zip_with_app {A B C : Type} (f : A -> B -> C) (a1 a2 : list A) (b1 b2 : list B) :
  length a1 = length b1 ->
  zip_with f (a1 ++ a2) (b1 ++ b2) = zip_with f a1 b1 ++ zip_with f a2 b2.
Proof.
  revert b1. induction a1 as [|x a1 IH]; intros [|y b1] H; try discriminate.
  - reflexivity.
  - unfold zip_with in *. simpl. f_equal. apply IH. simpl in H. lia.
Qed.

Lemma sum_app (a b : list R) : sum (a ++ b) = sum a + sum b.
Proof. induction a as [|x a IH]; simpl; [lra | rewrite IH; lra]. Qed.

Lemma sum_scaled (l : list R) (a : R) :
  sum (zip_with Rmult l (repeat a (length l))) = sum l * a.
Proof.
  induction l as [|x l IH]; unfold zip_with in *; simpl; [lra|]. rewrite IH. lra.
Qed.

(** All pairs: the products of every log-probability with every advantage
    add up to the product of the two sums. *)
Lemma sum_all_pairs (lp adv : list R) :
  sum (zip_with Rmult (concat (repeat lp (length adv)))
                      (flat_map (fun x => repeat x (length lp)) adv))
  = sum lp * sum adv.
Proof.
  induction adv as [|a adv IH]; simpl; [unfold zip_with; simpl; lra|].
  rewrite zip_with_app by (rewrite repeat_length; reflexivity).
  rewrite sum_app, IH, sum_scaled. lra.
Qed.

(** Row by row: every row of [d] log-probabilities is weighted by the
    advantage of its example. *)
Lemma sum_rows_weighted (d : nat) (adv lp : list R) :
  length lp = (length adv * d)%nat ->
  sum (zip_with Rmult lp (flat_map (fun x => repeat x d) adv))
  = sum (zip_with Rmult (map sum (chunks (length adv) d lp)) adv).
Proof.
  revert lp. induction adv as [|a adv IH]; intros lp H; simpl in *.
  - destruct lp; [reflexivity | discriminate].
  - rewrite <- (firstn_skipn d lp) at 1.
    assert (Hf : length (firstn d lp) = d) by (rewrite length_firstn; lia).
    rewrite zip_with_app by (rewrite repeat_length; exact Hf).
    rewrite sum_app, IH by (rewrite length_skipn; lia).
    rewrite <- Hf at 2. rewrite sum_scaled.
    unfold zip_with. simpl. lra.
Qed.

(** ** The actor loss of [MLPPolicyPG.update] *)

Section ActorLoss.
Import Policies Examples.

Ltac rsimp :=
  repeat rewrite ?Rmult_0_l, ?Rmult_0_r, ?Rplus_0_l, ?Rplus_0_r,
                 ?Rmult_1_l, ?Rmult_1_r, ?Rminus_0_l, ?exp_0.

Lemma ln_2_lt_ln_1_plus_e : ln (1 + 1) < ln (1 + exp 1).
Proof.
  apply ln_increasing; [lra|].
  pose proof (exp_ineq1 1 ltac:(lra)). lra.
Qed.

(** With log-probabilities of shape [N], as every discrete policy produces
    for [N] actions, the unsqueezed advantages pair every advantage with
    every log-probability: the loss is the negative product of the two
    batch means. *)
Lemma actor_loss_of_rank1_log_probs (activation : R -> R) (self : MLPPolicy)
      (obs actions advantages : tensor) (d : Distribution) (lp : tensor) (N : nat) :
  forward activation true self obs = Ok d ->
  log_prob d actions = Ok lp ->
  shape lp = [N] -> wf_tensor lp ->
  shape advantages = [N] -> wf_tensor advantages ->
  pg_loss activation self obs actions advantages
  = Ok (- (sum (data lp) * sum (data advantages) / INR (N * N))).
Proof.
  intros Hf Hlp Hs Hw Ha Hwa. unfold pg_loss. rewrite Hf. simpl bind.
  rewrite Hlp. simpl bind. unfold mul, broadcast_op, unsqueeze_last.
  cbn [shape data]. rewrite Hs, Ha. cbn [app].
  rewrite broadcast_shapes_row_column.
  unfold wf_tensor in Hw, Hwa. rewrite Hs in Hw. rewrite Ha in Hwa.
  simpl in Hw, Hwa. rewrite Nat.mul_1_r in Hw, Hwa.
  rewrite (expand_row N N) by exact Hw.
  rewrite (expand_column N N) by exact Hwa.
  cbn [bind]. unfold mean, neg. cbn [shape data numel fold_right].
  replace (concat (repeat (data lp) N))
    with (concat (repeat (data lp) (length (data advantages))))
    by (rewrite Hwa; reflexivity).
  replace (flat_map (fun x : R => repeat x N) (data advantages))
    with (flat_map (fun x : R => repeat x (length (data lp))) (data advantages))
    by (rewrite Hw; reflexivity).
  rewrite sum_all_pairs, Nat.mul_1_r. reflexivity.
Qed.

(** With log-probabilities of shape [N x D], as a continuous policy
    produces for [N] actions of dimension [D], each advantage weights the
    [D] log-densities of its example, and the mean is taken over all
    [N * D] entries. *)
Lemma actor_loss_of_rank2_log_probs (activation : R -> R) (self : MLPPolicy)
      (obs actions advantages : tensor) (d : Distribution) (lp : tensor) (N D : nat) :
  forward activation true self obs = Ok d ->
  log_prob d actions = Ok lp ->
  shape lp = [N; D] -> wf_tensor lp ->
  shape advantages = [N] -> wf_tensor advantages ->
  pg_loss activation self obs actions advantages
  = Ok (- (sum (zip_with Rmult (map sum (chunks N D (data lp))) (data advantages))
           / INR (N * D))).
Proof.
  intros Hf Hlp Hs Hw Ha Hwa. unfold pg_loss. rewrite Hf. simpl bind.
  rewrite Hlp. simpl bind. unfold mul, broadcast_op, unsqueeze_last.
  cbn [shape data]. rewrite Hs, Ha. cbn [app].
  rewrite broadcast_shapes_matrix_column.
  unfold wf_tensor in Hw, Hwa. rewrite Hs in Hw. rewrite Ha in Hwa.
  simpl in Hw, Hwa. rewrite Nat.mul_1_r in Hw, Hwa.
  rewrite expand_to_same by (simpl; lia).
  rewrite (expand_column N D) by exact Hwa.
  cbn [bind]. unfold mean, neg. cbn [shape data numel fold_right].
  rewrite sum_rows_weighted by (rewrite Hwa; exact Hw).
  rewrite Hwa, Nat.mul_1_r. reflexivity.
Qed.

(** For one action dimension this is the surrogate of the specification. *)
Lemma actor_loss_single_action_dimension (activation : R -> R) (self : MLPPolicy)
      (obs actions advantages : tensor) (d : Distribution) (lp : tensor) (N : nat) :
  forward activation true self obs = Ok d ->
  log_prob d actions = Ok lp ->
  shape lp = [N; 1%nat] -> wf_tensor lp ->
  shape advantages = [N] -> wf_tensor advantages -> N <> 0%nat ->
  pg_loss activation self obs actions advantages
  = Ok (Reference.surrogate (Reference.per_example N lp) (data advantages)).
Proof.
  intros Hf Hlp Hs Hw Ha Hwa HN.
  rewrite (actor_loss_of_rank2_log_probs activation self obs actions advantages
             d lp N 1 Hf Hlp Hs Hw Ha Hwa).
  unfold Reference.surrogate, Reference.per_example. rewrite Hs.
  cbn [numel fold_right]. rewrite !Nat.mul_1_r, Nat.div_same by exact HN.
  rewrite length_map, chunks_length. reflexivity.
Qed.

Lemma two_action_update_loss (activation : R -> R) (partial : autograd) :
  snd (MLPPolicyPG_update activation partial two_action_policy
         obs_0_1 actions_0_0 advantages_1_m1)
  = Ok [("Actor Loss"%string, mkArray [] [0])].
Proof.
  ev. rewrite !(index_of_IZR 2 0) by (simpl; lia). ev.
  do 5 f_equal. replace (INR 4) with 4 by (simpl; lra). lra.
Qed.

(** C1, at the batch of two observations with advantages [1] and [-1]
    under the two-action policy: the log-probabilities (of shape [2]) are
    multiplied with the advantages unsqueezed to shape [2 x 1], which
    broadcasts to the [2 x 2] table of all pairs, and the loss returned
    under "Actor Loss" is the negative mean of that table, here [0];
    the negative batch mean of log-probability times advantage of the
    same batch is not [0]. *)
Theorem actor_loss_discrete_pairs_all_examples :
  forall (activation : R -> R) (partial : autograd),
    snd (MLPPolicyPG_update activation partial two_action_policy
           obs_0_1 actions_0_0 advantages_1_m1)
    = Ok [("Actor Loss"%string, mkArray [] [0])]
    /\ exists log_probs,
        (dists <- forward activation true two_action_policy (from_numpy obs_0_1) ;;
         log_prob dists (from_numpy actions_0_0)) = Ok log_probs
        /\ shape log_probs = [2%nat]
        /\ Reference.surrogate (Reference.per_example 2 log_probs)
                               (nd_data advantages_1_m1) <> 0.
Proof.
  intros activation partial. split.
  - apply two_action_update_loss.
  - eexists. split; [|split].
    + ev. rewrite !(index_of_IZR 2 0) by (simpl; lia). ev. reflexivity.
    + reflexivity.
    + ev. rsimp. replace (INR 2) with 2 by (simpl; lra).
      pose proof ln_2_lt_ln_1_plus_e. lra.
Qed.
End ActorLoss.

(** ** [forward], [get_action] and the base [update] *)

Section ForwardAndSampling.
Import Policies.
Variable activation : R -> R.





(** C7: [forward] of a policy depends on the discrete flag, the networks
    and the log-std only, and [forward] of a critic on its network only:
    two calls on the same batch by objects with the same parameters return
    the same distribution parameters, respectively the same values,
    whatever the gradients and the optimizer state are. *)
Theorem forward_deterministic :
  (forall (g : bool) (p1 p2 : MLPPolicy) (obs : tensor),
      discrete p1 = discrete p2 ->
      logits_net p1 = logits_net p2 ->
      mean_net p1 = mean_net p2 ->
      logstd p1 = logstd p2 ->
      forward activation g p1 obs = forward activation g p2 obs)
  /\ (forall (c1 c2 : Critics.ValueCritic) (obs : tensor),
      Critics.network c1 = Critics.network c2 ->
      Critics.forward activation c1 obs = Critics.forward activation c2 obs).
Proof.
  split.
  - intros g p1 p2 obs Hd Hl Hm Hs. unfold forward.
    rewrite Hd, Hl, Hm, Hs. reflexivity.
  - intros c1 c2 obs Hn. unfold Critics.forward. rewrite Hn. reflexivity.
Qed.


(** C10: whatever the batch, [update] of the base class returns the
    object unchanged and raises [NotImplementedError]; on the subclass
    [MLPPolicyPG] the same method performs an update and returns its
    diagnostics. *)
Theorem base_update_not_implemented :
  forall (partial : autograd),
    (forall (self : MLPPolicy) (obs actions advantages : ndarray),
        update activation partial MLPPolicy_class self obs actions advantages
        = (self, Raise NotImplementedError))
    /\ is_ok (snd (update activation partial MLPPolicyPG_class
                     Examples.two_action_policy Examples.obs_0_1
                     Examples.actions_0_0 Examples.advantages_1_m1)) = true.
Proof.
  intros partial. split.
  - reflexivity.
  - simpl update. rewrite two_action_update_loss. reflexivity.
Qed.
End ForwardAndSampling.

Lemma forward_deterministic_witness :
  Policies.forward tanh true Examples.two_action_policy (from_numpy Examples.obs_0_1)
  = Policies.forward tanh true Examples.two_action_policy_trained
                     (from_numpy Examples.obs_0_1)
  /\ Critics.forward tanh Examples.identity_critic (from_numpy Examples.obs_0_2)
     = Critics.forward tanh
         (Critics.mkCritic Examples.identity_net (Some [1; 1]) (Examples.fresh_adam 2))
         (from_numpy Examples.obs_0_2).
Proof.
  split.
  - apply (proj1 (forward_deterministic tanh)); reflexivity.
  - apply (proj2 (forward_deterministic tanh)); reflexivity.
Defined.


(** ** Construction *)

Section Construction.
Variable build : builder.

Lemma new_Adam_Raise (n : nat) (learning_rate : R) (e : error) :
  new_Adam n learning_rate = Raise e <-> learning_rate < 0 /\ e = ValueError.
Proof.
  unfold new_Adam. destruct (Rlt_dec learning_rate 0) as [H|H]; split.
  - intros E. injection E as <-. auto.
  - intros [_ ->]. reflexivity.
  - discriminate.
  - intros [H' _]. contradiction.
Qed.

Lemma torch_zeros_Raise (n : Z) (e : error) :
  torch_zeros n = Raise e <-> (n < 0)%Z /\ e = AllocError.
Proof.
  unfold torch_zeros. destruct (n <? 0)%Z eqn:H; split.
  - intros E. injection E as <-. apply Z.ltb_lt in H. auto.
  - intros [_ ->]. reflexivity.
  - discriminate.
  - intros [H' _]. apply Z.ltb_ge in H. lia.
Qed.

(** C9, as the constructors behave: neither [MLPPolicy.__init__] nor
    [ValueCritic.__init__] inspects a dimension.  Construction fails
    exactly when the network builder raises, when the log-std of a
    continuous policy cannot be allocated because [ac_dim] is negative, or
    when Adam rejects a negative learning rate; the error is the one
    raised there. *)
Theorem construction_fails_only_in_the_backend :
  (forall (ac_dim ob_dim : Z) (discrete : bool) (n_layers layer_size : Z)
          (learning_rate : R) (e : error),
      Policies.init build ac_dim ob_dim discrete n_layers layer_size learning_rate
      = Raise e
      <-> (build ob_dim ac_dim n_layers layer_size = Raise e
           \/ (is_ok (build ob_dim ac_dim n_layers layer_size) = true
               /\ discrete = false /\ (ac_dim < 0)%Z /\ e = AllocError)
           \/ (is_ok (build ob_dim ac_dim n_layers layer_size) = true
               /\ (discrete = true \/ (0 <= ac_dim)%Z)
               /\ learning_rate < 0 /\ e = ValueError)))
  /\ (forall (ob_dim n_layers layer_size : Z) (learning_rate : R) (e : error),
      Critics.init build ob_dim n_layers layer_size learning_rate = Raise e
      <-> (build ob_dim 1%Z n_layers layer_size = Raise e
           \/ (is_ok (build ob_dim 1%Z n_layers layer_size) = true
               /\ learning_rate < 0 /\ e = ValueError))).
Proof.
  split.
  - intros ac_dim ob_dim discrete n_layers layer_size learning_rate e.
    unfold Policies.init.
    destruct discrete;
      destruct (build ob_dim ac_dim n_layers layer_size) as [net|e0]; simpl.
    + destruct (new_Adam _ learning_rate) as [opt|e1] eqn:Ha; simpl.
      * split; [discriminate|].
        intros [H|[(_ & H & _)|(_ & _ & Hlr & He)]]; try discriminate.
        assert (Hr : new_Adam (Policies.total_numel (mlp_parameters net))
                              learning_rate = Raise e)
          by (apply new_Adam_Raise; auto).
        congruence.
      * apply new_Adam_Raise in Ha as [Hlr ->]. split.
        -- intros E. injection E as <-. right. right. auto.
        -- intros [H|[(_ & H & _)|(_ & _ & _ & ->)]]; try discriminate; reflexivity.
    + split.
      * intros E. injection E as <-. auto.
      * intros [H|[(H & _)|(H & _)]]; try discriminate. congruence.
    + destruct (torch_zeros ac_dim) as [ls|e1] eqn:Hz; simpl.
      * assert (Hac : (0 <= ac_dim)%Z).
        { unfold torch_zeros in Hz. destruct (ac_dim <? 0)%Z eqn:Hlt; [discriminate|].
          apply Z.ltb_ge in Hlt. lia. }
        destruct (new_Adam _ learning_rate) as [opt|e2] eqn:Ha; simpl.
        -- split; [discriminate|].
           intros [H|[(_ & _ & H & _)|(_ & _ & Hlr & He)]]; try discriminate; try lia.
           assert (Hr : new_Adam (Policies.total_numel (ls :: mlp_parameters net))
                                 learning_rate = Raise e)
             by (apply new_Adam_Raise; auto).
           congruence.
        -- apply new_Adam_Raise in Ha as [Hlr ->]. split.
           ++ intros E. injection E as <-. right. right. auto.
           ++ intros [H|[(_ & _ & H & _)|(_ & _ & _ & ->)]];
                try discriminate; try lia; reflexivity.
      * apply torch_zeros_Raise in Hz as [Hac ->]. split.
        -- intros E. injection E as <-. right. left. auto.
        -- intros [H|[(_ & _ & _ & ->)|(_ & [H|H] & _)]];
             try discriminate; try lia; reflexivity.
    + split.
      * intros E. injection E as <-. auto.
      * intros [H|[(H & _)|(H & _)]]; try discriminate. congruence.
  - intros ob_dim n_layers layer_size learning_rate e.
    unfold Critics.init.
    destruct (build ob_dim 1%Z n_layers layer_size) as [net|e0]; simpl.
    + destruct (new_Adam _ learning_rate) as [opt|e1] eqn:Ha; simpl.
      * split; [discriminate|].
        intros [H|(_ & Hlr & He)]; try discriminate.
        assert (Hr : new_Adam (Policies.total_numel (mlp_parameters net))
                              learning_rate = Raise e)
          by (apply new_Adam_Raise; auto).
        congruence.
      * apply new_Adam_Raise in Ha as [Hlr ->]. split.
        -- intros E. injection E as <-. right. auto.
        -- intros [H|(_ & _ & ->)]; try discriminate; reflexivity.
    + split.
      * intros E. injection E as <-. auto.
      * intros [H|(H & _)]; try discriminate. congruence.
Qed.
End Construction.

(** C9 does not hold as stated: with the builder of [Ptu], a discrete policy
    with [ac_dim = 0], a continuous policy with [ob_dim = 0] and a critic
    with [ob_dim = 0] are constructed without any error. *)
Lemma zero_dimension_is_accepted :
  is_ok (Policies.init Examples.zero_builder 0 3 true 1 4 (1 / 100)) = true
  /\ is_ok (Policies.init Examples.zero_builder 2 0 false 1 4 (1 / 100)) = true
  /\ is_ok (Critics.init Examples.zero_builder 0 1 4 (1 / 100)) = true.
Proof.
  repeat split; ev; destruct (Rlt_dec (1 / 100) 0); try reflexivity; lra.
Qed.

Lemma construction_fails_only_in_the_backend_witness :
  Policies.init Examples.zero_builder (-1) 3 false 1 4 (1 / 100) = Raise AllocError
  /\ Critics.init Examples.zero_builder 3 1 4 (-1) = Raise ValueError.
Proof.
  split.
  - apply (proj1 (construction_fails_only_in_the_backend Examples.zero_builder)).
    left. reflexivity.
  - apply (proj2 (construction_fails_only_in_the_backend Examples.zero_builder)).
    right. split; [reflexivity|]. split; [lra | reflexivity].
Defined.

(** ** The baseline loss of [ValueCritic.update] *)

Section BaselineLoss.
Import Critics Examples.
Variable activation : R -> R.
Variable partial : autograd.

Lemma numel_column (n : nat) : numel [n; 1%nat] = n.
Proof. simpl. lia. Qed.

(** C2, for targets given as a column: when the batch holds [N]
    observations of the width the network accepts and the targets have the
    shape [N x 1] of the predictions, [update] returns under
    "Baseline Loss" the mean over the [N] observations of the squared
    difference between prediction and target. *)
Theorem baseline_loss_is_mse_for_column_targets :
  forall (self : ValueCritic) (obs q_values : ndarray) (N ob : nat),
    well_shaped ob 1 (network self) ->
    nd_shape obs = [N; ob] -> wf_array obs ->
    nd_shape q_values = [N; 1%nat] -> wf_array q_values ->
    exists y,
      forward activation self (from_numpy obs) = Ok y
      /\ shape y = [N; 1%nat]
      /\ length (data y) = N
      /\ snd (update activation partial self obs q_values)
         = Ok [("Baseline Loss"%string,
                mkArray [] [Reference.mean_squared_error (data y) (nd_data q_values)])].
Proof.
  intros self obs q N ob Hnet Hobs Hwobs Hq Hwq.
  destruct (mlp_forward_shape activation (network self) (from_numpy obs) [N] ob 1 Hnet)
    as (y & Hy & Hsy & Hwy); [exact Hobs | exact Hwobs |].
  simpl in Hsy.
  assert (Hlen : length (data y) = N).
  { unfold wf_tensor in Hwy. rewrite Hwy, Hsy. apply numel_column. }
  exists y. repeat split; try assumption.
  unfold update, critic_loss, forward, zero_grad. simpl network.
  unfold forward in Hy. rewrite Hy. simpl bind.
  unfold mse_loss. rewrite broadcast_op_same_shape.
  - simpl. unfold Reference.mean_squared_error, mean. simpl.
    rewrite Hsy, numel_column, Hlen. reflexivity.
  - simpl. rewrite Hsy. exact Hq.
  - exact Hwy.
  - exact Hwq.
Qed.
End BaselineLoss.

(** C2 does not hold for every batch of targets: with two observations and
    the two targets given as a vector of shape [2], the predictions of shape
    [2 x 1] are broadcast against them and the loss averages the four
    squared differences of all pairs; it is [2] where the mean squared error
    over the two observations is [0]. *)
Lemma baseline_loss_rank1_targets_pairs :
  exists y,
    Critics.forward tanh Examples.identity_critic (from_numpy Examples.obs_0_2) = Ok y
    /\ Reference.mean_squared_error (data y) (nd_data Examples.targets_rank1) = 0
    /\ snd (Critics.update tanh central_difference Examples.identity_critic
              Examples.obs_0_2 Examples.targets_rank1)
       = Ok [("Baseline Loss"%string, mkArray [] [2])]
    /\ 2 <> 0.
Proof.
  eexists. split; [ev; reflexivity|]. split; [|split].
  - ev. replace (INR 2) with 2 by (simpl; lra). lra.
  - ev. do 5 f_equal. replace (INR 4) with 4 by (simpl; lra). lra.
  - lra.
Qed.

Lemma baseline_loss_is_mse_for_column_targets_witness :
  exists y,
    Critics.forward tanh Examples.identity_critic (from_numpy Examples.obs_0_2) = Ok y
    /\ shape y = [2; 1]%nat
    /\ length (data y) = 2%nat
    /\ snd (Critics.update tanh central_difference Examples.identity_critic
              Examples.obs_0_2 Examples.targets_column)
       = Ok [("Baseline Loss"%string,
              mkArray [] [Reference.mean_squared_error
                            (data y) (nd_data Examples.targets_column)])].
Proof.
  apply (baseline_loss_is_mse_for_column_targets tanh central_difference
           Examples.identity_critic Examples.obs_0_2 Examples.targets_column 2 1);
    reflexivity.
Defined.

(** ** Sampling a discrete action *)

Lemma search_cdf_lt (ps : list R) (acc u : R) :
  ps <> [] -> u <= 1 -> (search_cdf ps acc u < length ps)%nat.
Proof.
  revert acc. induction ps as [|p ps IH]; intros acc Hne Hu; [contradiction|].
  simpl. destruct ps as [|q ps].
  - destruct (Rlt_dec 1 u); [lra | simpl; lia].
  - destruct (Rlt_dec (acc + p) u); [|simpl; lia].
    apply -> Nat.succ_lt_mono. apply IH; [discriminate | exact Hu].
Qed.

Lemma log_softmax_length (row : list R) : length (log_softmax row) = length row.
Proof. unfold log_softmax. apply length_map. Qed.

(** *** The builder of [Ptu] returns networks of the requested sizes *)

Lemma chain_snoc (i k : nat) (ls : list Linear) (l : Linear) :
  chain i ls = Some k -> in_features l = k ->
  chain i (ls ++ [l]) = Some (out_features l).
Proof.
  revert i. induction ls as [|h ls IH]; intros i H Hk; simpl in *.
  - injection H as <-. rewrite Hk, Nat.eqb_refl. reflexivity.
  - destruct (in_features h =? i)%nat; [|discriminate]. apply IH; assumption.
Qed.

Section BuilderOfPtu.
Variables winit binit : nat -> nat -> R.

Lemma new_Linear_features (k : nat) (i o : Z) (l : Linear) :
  new_Linear winit binit k i o = Ok l ->
  in_features l = Z.to_nat i /\ out_features l = Z.to_nat o.
Proof.
  unfold new_Linear. destruct ((i <? 0) || (o <? 0))%Z; [discriminate|].
  intros H. injection H as <-. split; reflexivity.
Qed.

Lemma build_hidden_chain (n k : nat) (in_size size : Z) (ls : list Linear) (o : Z) :
  build_hidden winit binit n k in_size size = Ok (ls, o) ->
  chain (Z.to_nat in_size) ls = Some (Z.to_nat o).
Proof.
  revert k in_size ls. induction n as [|n IH]; intros k in_size ls H; simpl in H.
  - injection H as <- <-. reflexivity.
  - destruct (new_Linear winit binit k in_size size) as [l|] eqn:Hl; [|discriminate].
    simpl in H.
    destruct (build_hidden winit binit n (S k) size size) as [[ls' o']|] eqn:Hr;
      [|discriminate].
    simpl in H. injection H as <- <-.
    apply new_Linear_features in Hl as [Hi Ho].
    simpl. rewrite Hi, Nat.eqb_refl, Ho. apply (IH _ _ _ Hr).
Qed.

Lemma build_mlp_ok : builder_ok (build_mlp winit binit).
Proof.
  intros i o n s m. unfold build_mlp.
  destruct (build_hidden winit binit (Z.to_nat n) 0 i s) as [[ls k]|] eqn:Hh;
    [|discriminate].
  simpl. destruct (new_Linear winit binit (Z.to_nat n) k o) as [l|] eqn:Hl;
    [|discriminate].
  simpl. intros H. injection H as <-.
  apply new_Linear_features in Hl as [Hi Ho].
  unfold well_shaped, layers. simpl. rewrite <- Ho.
  apply chain_snoc with (k := Z.to_nat k); [|exact Hi].
  apply (build_hidden_chain _ _ _ _ _ _ Hh).
Qed.
End BuilderOfPtu.

Section DiscreteActions.
Import Policies.
Variable activation : R -> R.
Variable build : builder.

Lemma init_discrete (ac_dim ob_dim n_layers layer_size : Z) (learning_rate : R)
      (self : MLPPolicy) :
  init build ac_dim ob_dim true n_layers layer_size learning_rate = Ok self ->
  exists net, build ob_dim ac_dim n_layers layer_size = Ok net
              /\ discrete self = true /\ logits_net self = Some net
              /\ mean_net self = None /\ logstd self = None.
Proof.
  unfold init.
  destruct (build ob_dim ac_dim n_layers layer_size) as [net|]; [|discriminate].
  simpl. destruct (new_Adam _ learning_rate); [|discriminate].
  simpl. intros H. injection H as <-. exists net. auto.
Qed.

(** C4: a policy constructed with [discrete=True] and a positive [ac_dim],
    asked for an action on one observation of width [ob_dim], returns a
    0-dimensional array holding an integer [k] with [0 <= k < ac_dim]. *)
Theorem discrete_action_in_range :
  forall (ac_dim ob_dim n_layers layer_size : Z) (learning_rate : R)
         (self : MLPPolicy) (gen : generator) (obs : ndarray),
    builder_ok build ->
    init build ac_dim ob_dim true n_layers layer_size learning_rate = Ok self ->
    (0 < ac_dim)%Z ->
    nd_shape obs = [Z.to_nat ob_dim] -> wf_array obs ->
    0 <= uniform gen (position gen) < 1 ->
    exists k : nat,
      (0 <= Z.of_nat k < ac_dim)%Z
      /\ snd (get_action activation self gen obs) = Ok (mkArray [] [INR k]).
Proof.
  intros ac_dim ob_dim n_layers layer_size learning_rate self gen obs
         Hb Hinit Hac Hobs Hw Hu.
  apply init_discrete in Hinit as (net & Hnet & Hd & Hl & _ & _).
  apply Hb in Hnet.
  destruct (mlp_forward_shape activation net (from_numpy obs) []
              (Z.to_nat ob_dim) (Z.to_nat ac_dim) Hnet Hobs Hw)
    as (y & Hy & Hsy & Hwy).
  simpl in Hsy.
  assert (Hlen : length (data y) = Z.to_nat ac_dim).
  { unfold wf_tensor in Hwy. rewrite Hwy, Hsy. simpl. lia. }
  assert (Hpos : Z.to_nat ac_dim <> 0%nat) by lia.
  set (row := firstn (Z.to_nat ac_dim) (log_softmax (firstn (Z.to_nat ac_dim) (data y)) ++ [])).
  exists (search_cdf (softmax row) 0 (uniform gen (position gen + 0))).
  split.
  - assert (Hrow : length (softmax row) = Z.to_nat ac_dim).
    { unfold row, softmax. rewrite length_map, log_softmax_length, app_nil_r, length_firstn, log_softmax_length,
        length_firstn. lia. }
    pose proof (search_cdf_lt (softmax row) 0 (uniform gen (position gen + 0))) as Hlt.
    rewrite Hrow in Hlt. rewrite Nat.add_0_r in *.
    assert (softmax row <> []) by (intros E; rewrite E in Hrow; simpl in Hrow; lia).
    specialize (Hlt H ltac:(lra)). lia.
  - unfold get_action, forward. rewrite Hd, Hl, Hy. simpl bind.
    unfold new_Categorical. rewrite Hsy. simpl.
    destruct (Nat.eqb_spec (Z.to_nat ac_dim) 0); [contradiction|].
    simpl. reflexivity.
Qed.
End DiscreteActions.

Lemma discrete_action_in_range_witness :
  exists (self : Policies.MLPPolicy) (k : nat),
    Policies.init Examples.zero_builder 2 1 true 1 4 (1 / 100) = Ok self
    /\ (0 <= Z.of_nat k < 2)%Z
    /\ snd (Policies.get_action tanh self Examples.zero_generator Examples.single_obs)
       = Ok (mkArray [] [INR k]).
Proof.
  destruct (Policies.init Examples.zero_builder 2 1 true 1 4 (1 / 100))
    as [self|e] eqn:Hinit.
  - destruct (discrete_action_in_range tanh Examples.zero_builder 2 1 1 4 (1 / 100)
                self Examples.zero_generator Examples.single_obs
                (build_mlp_ok _ _) Hinit)
      as (k & Hk & Hget);
      [lia | reflexivity | reflexivity | simpl; lra |].
    exists self, k. split; [reflexivity|]. split; [exact Hk | exact Hget].
  - exfalso. revert Hinit. ev.
    destruct (Rlt_dec (1 / 100) 0); [lra | discriminate].
Defined.

(** ** Momentum: a second update with zero advantages *)

Section Momentum.
Import Policies Examples.

Lemma derivable_pt_lim_pointwise (f g : R -> R) (x l : R) :
  (forall z, f z = g z) -> derivable_pt_lim g x l -> derivable_pt_lim f x l.
Proof.
  intros H Hg eps Heps. destruct (Hg eps Heps) as [delta Hd].
  exists delta. intros h Hh Hlt. rewrite !H. apply Hd; assumption.
Qed.

Lemma derivable_pt_lim_half_square (c : R) :
  derivable_pt_lim (fun z => z * z / 2 + c) 0 0.
Proof.
  intros eps Heps. exists (mkposreal eps Heps). simpl. intros h Hh Hlt.
  replace (((0 + h) * (0 + h) / 2 + c - (0 * 0 / 2 + c)) / h - 0) with (h / 2)
    by (field; exact Hh).
  apply Rabs_def2 in Hlt as [H1 H2]. apply Rabs_def1; lra.
Qed.

Local Abbreviation first_loss :=
  (loss_fn tanh (zero_grad unit_normal_policy) (from_numpy obs_zero)
           (from_numpy action_zero) (from_numpy advantage_one)).

(** The loss of the first batch as a function of log-std, weight and bias. *)
Lemma first_loss_closed_form (s w b : R) :
  first_loss [s; w; b] = b * b / (2 * (exp s * exp s)) + s + ln (sqrt (2 * PI)).
Proof.
  ev. rewrite ln_exp. replace (INR 1) with 1 by reflexivity.
  pose proof (exp_pos s). field. lra.
Qed.

Lemma first_gradient_value :
  gradient central_difference first_loss [0; 0; 0] = [1; 0; 0].
Proof.
  unfold gradient. cbn [length seq map]. unfold central_difference.
  cbn [nth set_nth firstn skipn app].
  rewrite !first_loss_closed_form.
  repeat f_equal; unfold Rdiv; lra.
Qed.

(** On the first batch the symmetric difference quotient is the gradient. *)
Lemma first_gradient_exact : is_gradient first_loss [0; 0; 0] [1; 0; 0].
Proof.
  split; [reflexivity|]. intros i Hi.
  destruct i as [|[|[|i]]]; cbn [nth set_nth firstn skipn app];
    [| | |simpl in Hi; lia].
  - apply (derivable_pt_lim_pointwise _ (fun s => s + ln (sqrt (2 * PI)))).
    + intros z. rewrite first_loss_closed_form. unfold Rdiv. lra.
    + replace 1 with (1 + 0) at 1 by lra.
      apply (derivable_pt_lim_plus id (fct_cte (ln (sqrt (2 * PI))))).
      * apply derivable_pt_lim_id.
      * apply derivable_pt_lim_const.
  - apply derivable_pt_lim_pointwise_const with (c := 0 + ln (sqrt (2 * PI))).
    intros z. rewrite first_loss_closed_form. unfold Rdiv. lra.
  - apply (derivable_pt_lim_pointwise _ (fun z => z * z / 2 + (0 + ln (sqrt (2 * PI))))).
    + intros z. rewrite first_loss_closed_form, exp_0. field.
    + apply derivable_pt_lim_half_square.
Qed.

Lemma first_update_state :
  fst (MLPPolicyPG_update tanh central_difference unit_normal_policy
         obs_zero action_zero advantage_one)
  = unit_normal_policy_updated.
Proof.
  destruct (MLPPolicyPG_update_cases tanh central_difference unit_normal_policy
              obs_zero action_zero advantage_one)
    as [[e E]|[[e E]|(loss & _ & E)]].
  - exfalso. revert E. ev. discriminate.
  - exfalso. revert E. ev. discriminate.
  - rewrite E. cbn [fst]. rewrite stepped_eq.
    change (flatten (parameters unit_normal_policy)) with [0; 0; 0].
    rewrite first_gradient_value. reflexivity.
Qed.

Lemma first_update_wf : wf_policy unit_normal_policy_updated.
Proof. repeat split. repeat constructor. Qed.

Lemma positive_step : 0 < 1 / 100 / (1 - (9 / 10) ^ 2).
Proof. simpl. lra. Qed.

(** C5 does not hold for every policy.  A continuous policy is updated once
    on an example with advantage [1], and then once more on the same
    example with advantage [0]: the autograd used is exact on both losses,
    the second gradient is zero, and yet the second update changes the
    log-std, because the first moment Adam kept from the first update is not
    zero. *)
Lemma zero_advantages_momentum_moves_log_std :
  let first := fst (MLPPolicyPG_update tanh central_difference unit_normal_policy
                      obs_zero action_zero advantage_one) in
  let second_loss := loss_fn tanh (zero_grad first) (from_numpy obs_zero)
                             (from_numpy action_zero) (from_numpy advantage_zero) in
  is_gradient first_loss (flatten (parameters unit_normal_policy))
              (gradient central_difference first_loss
                        (flatten (parameters unit_normal_policy)))
  /\ wf_policy first
  /\ all_zero (nd_data advantage_zero)
  /\ is_gradient second_loss (flatten (parameters first))
                 (gradient central_difference second_loss (flatten (parameters first)))
  /\ logstd (fst (MLPPolicyPG_update tanh central_difference first
                    obs_zero action_zero advantage_zero))
     <> logstd first.
Proof.
  cbv zeta. rewrite first_update_state.
  assert (Hz : all_zero (nd_data advantage_zero)) by (repeat constructor).
  assert (HL : forall t,
             loss_fn tanh (zero_grad unit_normal_policy_updated) (from_numpy obs_zero)
                     (from_numpy action_zero) (from_numpy advantage_zero) t = 0)
    by (apply loss_fn_zero_advantages, Hz).
  split; [|split; [|split; [|split]]].
  - change (flatten (parameters unit_normal_policy)) with [0; 0; 0].
    rewrite first_gradient_value. apply first_gradient_exact.
  - apply first_update_wf.
  - exact Hz.
  - apply central_difference_const with (c := 0), HL.
  - destruct (MLPPolicyPG_update_cases tanh central_difference unit_normal_policy_updated
                obs_zero action_zero advantage_zero)
      as [[e E]|[[e E]|(loss & _ & E)]].
    + exfalso. revert E. ev. discriminate.
    + exfalso. revert E. ev. discriminate.
    + rewrite E. cbn [fst]. rewrite stepped_eq.
      set (theta := flatten (parameters unit_normal_policy_updated)).
      rewrite (all_zero_eq _ (is_gradient_const _ 0 theta _ HL
                                (central_difference_const _ 0 theta HL))).
      rewrite gradient_length. subst theta. ev.
      intros H. injection H as H.
      pose proof positive_step as Hs.
      assert (Hd : 0 < sqrt (999 / 1000 * (999 / 1000 * 0 + (1 - 999 / 1000) * (1 * 1))
                             + (1 - 999 / 1000) * (0 * 0))
                       / sqrt (1 - (999 / 1000) ^ 2) + 1 / 100000000).
      { apply Rplus_le_lt_0_compat; [|lra].
        apply Rmult_le_pos; [apply sqrt_pos|].
        apply Rlt_le, Rinv_0_lt_compat, sqrt_lt_R0. simpl. lra. }
      assert (Hq : 0 < (9 / 10 * (9 / 10 * 0 + (1 - 9 / 10) * 1) + (1 - 9 / 10) * 0)
                       / (sqrt (999 / 1000 * (999 / 1000 * 0 + (1 - 999 / 1000) * (1 * 1))
                                + (1 - 999 / 1000) * (0 * 0))
                          / sqrt (1 - (999 / 1000) ^ 2) + 1 / 100000000)).
      { apply Rdiv_lt_0_compat; [lra | exact Hd]. }
      pose proof (Rmult_lt_0_compat _ _ Hs Hq) as Hp.
      unfold moved in H. cbn [pow] in *. lra.
Qed.
End Momentum.

Lemma zero_advantages_zero_gradient_witness :
  all_zero (nd_data Examples.advantage_zero)
  /\ wf_policy Examples.unit_normal_policy
  /\ Policies.logstd
       (fst (Policies.MLPPolicyPG_update tanh central_difference
               Examples.unit_normal_policy Examples.obs_zero Examples.action_zero
               Examples.advantage_zero))
     = Policies.logstd Examples.unit_normal_policy.
Proof.
  assert (Hz : all_zero (nd_data Examples.advantage_zero)) by (repeat constructor).
  assert (Hw : wf_policy Examples.unit_normal_policy)
    by (repeat split; repeat constructor).
  split; [exact Hz|]. split; [exact Hw|].
  apply (zero_advantages_zero_gradient tanh central_difference
           Examples.unit_normal_policy Examples.obs_zero Examples.action_zero
           Examples.advantage_zero Hz Hw).
  - repeat constructor.
  - apply central_difference_const with (c := 0).
    apply loss_fn_zero_advantages, Hz.
Defined.

(** ** Mismatched batches *)



Section Mismatch.
Import Policies.
Variable activation : R -> R.
Variable partial : autograd.

End Mismatch.



(** ** The discrete flag and the parameters a policy owns *)

Lemma wf_transfer (a b : list tensor) :
  sizes a = sizes b -> map shape a = map shape b ->
  Forall wf_tensor b -> Forall wf_tensor a.
Proof.
  revert b. induction a as [|x a IH]; intros [|y b] Hs Hsh H; try discriminate;
    constructor; simpl in *.
  - injection Hs as Hx _. injection Hsh as Hy _. inversion H; subst.
    unfold wf_tensor in *. congruence.
  - injection Hs as _ Hs. injection Hsh as _ Hsh. inversion H; subst. eapply IH; eauto.
Qed.

Section ParameterSet.
Import Policies.
Variable activation : R -> R.
Variable build : builder.
Variable partial : autograd.

Lemma init_continuous (ac_dim ob_dim n_layers layer_size : Z) (learning_rate : R)
      (self : MLPPolicy) :
  init build ac_dim ob_dim false n_layers layer_size learning_rate = Ok self ->
  discrete self = false /\ ownership self = (false, true, true).
Proof.
  unfold init.
  destruct (build ob_dim ac_dim n_layers layer_size) as [net|]; [|discriminate].
  simpl. destruct (torch_zeros ac_dim); [|discriminate].
  simpl. destruct (new_Adam _ learning_rate); [|discriminate].
  simpl. intros H. injection H as <-. split; reflexivity.
Qed.

Lemma stepped_wf (self : MLPPolicy) (L : list R -> R) :
  wf_policy self ->
  sizes (parameters (stepped_policy partial self L)) = sizes (parameters self)
  /\ wf_policy (stepped_policy partial self L).
Proof.
  intros (Hw & Hm & Hv).
  set (theta := flatten (parameters self)).
  destruct (adam_step_lengths (optimizer self) theta (gradient partial L theta)
              (total_numel (parameters self)) Hm Hv)
    as (Ht & Hm' & Hv'); [apply gradient_length | reflexivity |].
  assert (Hs : sizes (parameters (stepped_policy partial self L))
               = sizes (parameters self)).
  { rewrite stepped_parameters. apply load_parameters_sizes. fold theta. lia. }
  split; [exact Hs|].
  assert (Hn : total_numel (parameters (stepped_policy partial self L))
               = total_numel (parameters self))
    by (rewrite !total_numel_sizes, Hs; reflexivity).
  split; [|split].
  - apply (wf_transfer _ (parameters self)); [exact Hs | | exact Hw].
    apply stepped_frame.
  - rewrite Hn, stepped_eq. exact Hm'.
  - rewrite Hn, stepped_eq. exact Hv'.
Qed.

(** C6: construction with [discrete=True] sets the logits network and
    neither a mean network nor a log-std, construction with
    [discrete=False] sets the mean network and the log-std and no logits
    network; [get_action] returns the object as it was, and an [update] of
    either class keeps the flag, the attributes owned and the shape of
    every parameter, and, on a well-formed object, the number of values of
    every parameter. *)
Theorem discrete_flag_fixes_parameter_set :
  (forall (ac_dim ob_dim n_layers layer_size : Z) (learning_rate : R) (self : MLPPolicy),
      init build ac_dim ob_dim true n_layers layer_size learning_rate = Ok self ->
      discrete self = true /\ ownership self = (true, false, false))
  /\ (forall (ac_dim ob_dim n_layers layer_size : Z) (learning_rate : R) (self : MLPPolicy),
      init build ac_dim ob_dim false n_layers layer_size learning_rate = Ok self ->
      discrete self = false /\ ownership self = (false, true, true))
  /\ (forall (self : MLPPolicy) (gen : generator) (obs : ndarray),
      fst (fst (get_action activation self gen obs)) = self)
  /\ (forall (cls : policy_class) (self : MLPPolicy) (obs actions advantages : ndarray),
      let self' := fst (update activation partial cls self obs actions advantages) in
      discrete self' = discrete self
      /\ ownership self' = ownership self
      /\ map shape (parameters self') = map shape (parameters self)
      /\ (wf_policy self ->
          sizes (parameters self') = sizes (parameters self) /\ wf_policy self')).
Proof.
  split; [|split; [|split]].
  - intros ac_dim ob_dim n_layers layer_size learning_rate self H.
    apply init_discrete in H as (net & _ & Hd & Hl & Hm & Hs).
    split; [exact Hd|]. unfold ownership. rewrite Hl, Hm, Hs. reflexivity.
  - intros ac_dim ob_dim n_layers layer_size learning_rate self H.
    apply (init_continuous _ _ _ _ _ _ H).
  - intros self gen obs. unfold get_action.
    destruct (forward activation false self (from_numpy obs)); [|reflexivity].
    destruct (sample _ gen). reflexivity.
  - intros [|] self obs actions advantages; simpl.
    + repeat split; auto; apply H.
    + destruct (MLPPolicyPG_update_cases activation partial self obs actions advantages)
        as [[e E]|[[e E]|(loss & _ & E)]]; rewrite E; simpl fst.
      * repeat split; auto; apply H.
      * repeat split; auto; apply H.
      * pose proof (stepped_frame partial self
                      (loss_fn activation (zero_grad self) (from_numpy obs)
                               (from_numpy actions) (from_numpy advantages)))
          as (Hd & Ho & Hs).
        repeat split; try assumption; apply (stepped_wf _ _ H).
Qed.
End ParameterSet.

Lemma fresh_policy_wf (self : Policies.MLPPolicy) :
  Policies.init Examples.zero_builder 2 1 true 1 4 (1 / 100) = Ok self -> wf_policy self.
Proof.
  ev. destruct (Rlt_dec (1 / 100) 0); [discriminate|].
  intros H. injection H as <-. repeat split. repeat constructor.
Qed.

Lemma discrete_flag_fixes_parameter_set_witness :
  exists self : Policies.MLPPolicy,
    Policies.init Examples.zero_builder 2 1 true 1 4 (1 / 100) = Ok self
    /\ Policies.discrete self = true
    /\ ownership self = (true, false, false)
    /\ (exists other : Policies.MLPPolicy,
          Policies.init Examples.zero_builder 2 1 false 1 4 (1 / 100) = Ok other
          /\ ownership other = (false, true, true))
    /\ sizes (Policies.parameters
                (fst (Policies.update tanh central_difference Policies.MLPPolicyPG_class
                        self Examples.obs_0_1 Examples.actions_0_0
                        Examples.advantages_1_m1)))
       = sizes (Policies.parameters self).
Proof.
  pose proof (discrete_flag_fixes_parameter_set tanh Examples.zero_builder
                central_difference) as (Ht & Hf & _ & Hu).
  destruct (Policies.init Examples.zero_builder 2 1 true 1 4 (1 / 100))
    as [self|e] eqn:Hinit.
  - exists self. split; [reflexivity|].
    destruct (Ht _ _ _ _ _ _ Hinit) as [Hd Ho].
    split; [exact Hd|]. split; [exact Ho|]. split.
    + destruct (Policies.init Examples.zero_builder 2 1 false 1 4 (1 / 100))
        as [other|e] eqn:Hother.
      * exists other. split; [reflexivity|]. apply (Hf _ _ _ _ _ _ Hother).
      * exfalso. revert Hother. ev.
        destruct (Rlt_dec (1 / 100) 0); [lra | discriminate].
    + apply (Hu Policies.MLPPolicyPG_class self). apply fresh_policy_wf, Hinit.
  - exfalso. revert Hinit. ev.
    destruct (Rlt_dec (1 / 100) 0); [lra | discriminate].
Defined.

(** * Further properties of the two files *)

(** ** The exceptions an update can raise *)

Lemma broadcast_op_Raise (f : R -> R -> R) (x y : tensor) (e : error) :
  broadcast_op f x y = Raise e -> e = ShapeError.
Proof.
  unfold broadcast_op. destruct (broadcast_shapes _ _); [discriminate|].
  intros H. injection H as <-. reflexivity.
Qed.

Lemma Linear_forward_Raise (l : Linear) (x : tensor) (e : error) :
  Linear_forward l x = Raise e -> e = ShapeError.
Proof.
  unfold Linear_forward. destruct (shape x); [intros H; injection H as <-; reflexivity|].
  destruct (_ =? _)%nat; [discriminate|]. intros H. injection H as <-. reflexivity.
Qed.

Lemma bind_Raise {A B : Type} (m : result A) (k : A -> result B) (e : error) :
  bind m k = Raise e -> m = Raise e \/ exists a, m = Ok a /\ k a = Raise e.
Proof.
  destruct m as [a|e0]; simpl; intros H; [right; eauto | left].
  injection H as <-. reflexivity.
Qed.

Lemma mlp_forward_Raise (activation : R -> R) (m : mlp) (x : tensor) (e : error) :
  mlp_forward activation m x = Raise e -> e = ShapeError.
Proof.
  unfold mlp_forward. intros H.
  apply bind_Raise in H as [H|(h & _ & H)]; [|apply (Linear_forward_Raise _ _ _ H)].
  revert x H. induction (hidden m) as [|l ls IH]; intros x H; simpl in H; [discriminate|].
  apply bind_Raise in H as [H|(y & _ & H)].
  - apply (Linear_forward_Raise _ _ _ H).
  - apply (IH _ H).
Qed.

Lemma log_prob_Raise (d : Distribution) (value : tensor) (e : error) :
  log_prob d value = Raise e -> e = ValueError \/ e = ShapeError.
Proof.
  destruct d as [logits g|loc scale g]; simpl.
  - destruct (broadcast_shapes _ _); [|intros H; injection H as <-; auto].
    destruct (forallb _ _); [discriminate|]. intros H. injection H as <-. auto.
  - destruct (broadcast_shapes _ _); [|intros H; injection H as <-; auto].
    intros H. right.
    apply bind_Raise in H as [H|(t & _ & H)]; apply (broadcast_op_Raise _ _ _ _ H).
Qed.

Section Exceptions.
Import Policies.
Variable activation : R -> R.
Variable partial : autograd.

Lemma forward_Raise (g : bool) (self : MLPPolicy) (obs : tensor) (e : error) :
  forward activation g self obs = Raise e ->
  e = AttributeError \/ e = ShapeError \/ e = ValueError.
Proof.
  unfold forward. destruct (discrete self).
  - destruct (logits_net self) as [net|]; [|intros H; injection H as <-; auto].
    intros H. apply bind_Raise in H as [H|(t & _ & H)].
    + right. left. apply (mlp_forward_Raise _ _ _ _ H).
    + unfold new_Categorical in H. destruct (shape t); [|discriminate].
      injection H as <-. auto.
  - destruct (mean_net self) as [net|]; [|intros H; injection H as <-; auto].
    destruct (logstd self) as [ls|]; [|intros H; injection H as <-; auto].
    intros H. apply bind_Raise in H as [H|(t & _ & H)].
    + right. left. apply (mlp_forward_Raise _ _ _ _ H).
    + unfold new_Normal in H. destruct (broadcast_shapes _ _); [discriminate|].
      injection H as <-. auto.
Qed.

Lemma pg_loss_Raise (self : MLPPolicy) (obs actions advantages : tensor) (e : error) :
  pg_loss activation self obs actions advantages = Raise e ->
  e = AttributeError \/ e = ShapeError \/ e = ValueError.
Proof.
  unfold pg_loss. intros H.
  apply bind_Raise in H as [H|(d & _ & H)]; [apply (forward_Raise _ _ _ _ H)|].
  apply bind_Raise in H as [H|(lp & _ & H)].
  - destruct (log_prob_Raise _ _ _ H) as [-> | ->]; auto.
  - apply bind_Raise in H as [H|(w & _ & H)]; [|discriminate].
    right. left. apply (broadcast_op_Raise _ _ _ _ H).
Qed.

(** X1: [MLPPolicyPG.update] raises [IndexError] exactly on an observation
    array with fewer than two dimensions, and then returns the object
    untouched, stored gradients included; on an array with two or more
    dimensions any failure happens after [zero_grad], so the stored gradients
    are cleared, and the exception is a shape error, a validation error of
    the distribution or an attribute error, never anything else. *)
Theorem update_exceptions :
  forall (self : MLPPolicy) (obs actions advantages : ndarray),
    ((length (nd_shape obs) < 2)%nat ->
     MLPPolicyPG_update activation partial self obs actions advantages
     = (self, Raise IndexError))
    /\ ((2 <= length (nd_shape obs))%nat ->
        forall e,
          snd (MLPPolicyPG_update activation partial self obs actions advantages)
          = Raise e ->
          fst (MLPPolicyPG_update activation partial self obs actions advantages)
          = zero_grad self
          /\ (e = AttributeError \/ e = ShapeError \/ e = ValueError)).
Proof.
  intros self obs actions advantages. unfold MLPPolicyPG_update. split.
  - intros H. destruct (nd_shape obs) as [|a [|b s]]; simpl in *; try reflexivity; lia.
  - intros H e. destruct (nd_shape obs) as [|a [|b s]]; simpl in H; try lia.
    simpl nth_error. cbv iota.
    destruct (pg_loss _ _ _ _ _) as [l|e0] eqn:E; simpl; [discriminate|].
    intros He. injection He as <-. split; [reflexivity|].
    apply (pg_loss_Raise _ _ _ _ _ E).
Qed.

(** X2: whatever [ValueCritic.update] is given, the only exception it raises
    is a shape error, raised after [zero_grad] and before [backward]: the
    network and the optimizer are as before and the stored gradients are
    cleared. *)
Theorem critic_update_exceptions :
  forall (self : Critics.ValueCritic) (obs q_values : ndarray) (e : error),
    snd (Critics.update activation partial self obs q_values) = Raise e ->
    e = ShapeError
    /\ fst (Critics.update activation partial self obs q_values)
       = Critics.zero_grad self.
Proof.
  intros self obs q e. unfold Critics.update.
  destruct (Critics.critic_loss _ _ _ _) as [l|e0] eqn:E; simpl; [discriminate|].
  intros H. injection H as <-. split; [|reflexivity].
  unfold Critics.critic_loss in E.
  apply bind_Raise in E as [E|(y & _ & E)].
  - apply (mlp_forward_Raise _ _ _ _ E).
  - unfold mse_loss in E. apply bind_Raise in E as [E|(d & _ & E)]; [|discriminate].
    apply (broadcast_op_Raise _ _ _ _ E).
Qed.

(** X3: an update starts by clearing the stored gradients, so its result
    does not depend on them: a policy or a critic that differs from another
    only in the gradients it stores returns the same diagnostics and ends in
    the same state (for the policy, on an observation array of two or more
    dimensions, where the update gets as far as [zero_grad]). *)
Theorem update_ignores_stored_gradients :
  (forall (self : MLPPolicy) (g : option (list R)) (obs actions advantages : ndarray),
      snd (MLPPolicyPG_update activation partial (policy_with_grad self g)
             obs actions advantages)
      = snd (MLPPolicyPG_update activation partial self obs actions advantages)
      /\ ((2 <= length (nd_shape obs))%nat ->
          fst (MLPPolicyPG_update activation partial (policy_with_grad self g)
                 obs actions advantages)
          = fst (MLPPolicyPG_update activation partial self obs actions advantages)))
  /\ (forall (self : Critics.ValueCritic) (g : option (list R)) (obs q_values : ndarray),
      Critics.update activation partial (critic_with_grad self g) obs q_values
      = Critics.update activation partial self obs q_values).
Proof.
  split.
  - intros self g obs actions advantages. unfold MLPPolicyPG_update.
    change (zero_grad (policy_with_grad self g)) with (zero_grad self).
    destruct (nth_error (nd_shape obs) 1) eqn:E.
    + split; [|intros _]; destruct (pg_loss _ _ _ _ _); reflexivity.
    + split; [reflexivity|]. intros H. apply nth_error_None in E. lia.
  - intros self g obs q. reflexivity.
Qed.
End Exceptions.

Lemma update_exceptions_witness :
  Policies.MLPPolicyPG_update tanh central_difference Examples.two_action_policy_trained
    Examples.single_obs Examples.actions_0_0 Examples.advantages_1_m1
  = (Examples.two_action_policy_trained, Raise IndexError)
  /\ fst (Policies.MLPPolicyPG_update tanh central_difference
            Examples.two_action_policy_trained Examples.obs_0_1_2
            Examples.actions_0_0 Examples.advantages_1_1)
     = Policies.zero_grad Examples.two_action_policy_trained.
Proof.
  pose proof (update_exceptions tanh central_difference) as H. split.
  - apply (proj1 (H _ _ _ _)). simpl. lia.
  - apply (proj2 (H Examples.two_action_policy_trained Examples.obs_0_1_2
                    Examples.actions_0_0 Examples.advantages_1_1)
             ltac:(simpl; lia) ValueError).
    reflexivity.
Defined.

Lemma critic_update_exceptions_witness :
  fst (Critics.update tanh central_difference Examples.identity_critic
         Examples.obs_0_2 Examples.targets_column3)
  = Critics.zero_grad Examples.identity_critic.
Proof.
  apply (critic_update_exceptions tanh central_difference Examples.identity_critic
           Examples.obs_0_2 Examples.targets_column3 ShapeError).
  reflexivity.
Defined.

Lemma update_ignores_stored_gradients_witness :
  fst (Policies.MLPPolicyPG_update tanh central_difference
         (policy_with_grad Examples.unit_normal_policy (Some [1; 1; 1]))
         Examples.obs3 Examples.actions3 Examples.advantages_1_1)
  = fst (Policies.MLPPolicyPG_update tanh central_difference
           Examples.unit_normal_policy Examples.obs3 Examples.actions3
           Examples.advantages_1_1).
Proof.
  apply (proj1 (update_ignores_stored_gradients tanh central_difference)).
  simpl. lia.
Defined.

(** ** Predictions and loss of the critic *)

Lemma chunks_of_concat {A : Type} (k : nat) (rows : list (list A)) :
  Forall (fun c => length c = k) rows ->
  chunks (length rows) k (concat rows) = rows.
Proof.
  induction 1 as [|c rows Hc _ IH]; simpl; [reflexivity|].
  subst k. rewrite firstn_exact, skipn_exact, IH. reflexivity.
Qed.

Lemma Linear_forward_rows (l : Linear) (x : tensor) (lead : list nat) :
  shape x = lead ++ [in_features l] ->
  Linear_forward l x
  = Ok (mkTensor (lead ++ [out_features l])
          (concat (map (affine l) (chunks (numel lead) (in_features l) (data x))))).
Proof.
  intros Hs. unfold Linear_forward. rewrite Hs.
  destruct (lead ++ [in_features l]) eqn:E; [destruct lead; discriminate|].
  rewrite <- E, removelast_last, last_last, Nat.eqb_refl. reflexivity.
Qed.

Section Rows.
Variable activation : R -> R.

Lemma hidden_forward_rows (ls : list Linear) (x : tensor) (lead : list nat) (i o : nat) :
  chain i ls = Some o -> shape x = lead ++ [i] -> wf_tensor x ->
  hidden_forward activation ls x
  = Ok (mkTensor (lead ++ [o])
          (concat (map (fold_left (fun r l => map activation (affine l r)) ls)
                       (chunks (numel lead) i (data x))))).
Proof.
  revert x i. induction ls as [|l ls IH]; intros x i Hc Hs Hw; simpl in Hc.
  - injection Hc as <-. simpl. rewrite map_id, chunks_concat.
    + rewrite <- Hs. destruct x. reflexivity.
    + unfold wf_tensor in Hw. rewrite Hw, Hs, numel_app. simpl. lia.
  - destruct (Nat.eqb_spec (in_features l) i) as [E|]; [subst i|discriminate].
    cbn [hidden_forward]. rewrite (Linear_forward_rows l x lead Hs). cbn [bind].
    rewrite (IH _ (out_features l) Hc); [| reflexivity |].
    + f_equal. f_equal. cbn [map_tensor data shape].
      rewrite concat_map, map_map.
      rewrite <- (chunks_length (numel lead) (in_features l) (data x)) at 1.
      rewrite <- (length_map (fun r => map activation (affine l r))).
      rewrite chunks_of_concat.
      * rewrite map_map. reflexivity.
      * apply Forall_map, Forall_forall. intros c _.
        rewrite length_map. apply affine_length.
    + unfold wf_tensor. cbn [map_tensor data shape].
      rewrite length_map, (concat_length_const (out_features l)).
      * rewrite length_map, chunks_length, numel_app. simpl. lia.
      * apply Forall_map, Forall_forall. intros c _. apply affine_length.
Qed.

(** A well-shaped network acts on a batch row by row. *)
Lemma mlp_forward_rows (m : mlp) (x : tensor) (lead : list nat) (ob ac : nat) :
  well_shaped ob ac m -> shape x = lead ++ [ob] -> wf_tensor x ->
  mlp_forward activation m x
  = Ok (mkTensor (lead ++ [ac])
          (concat (map (mlp_row activation m) (chunks (numel lead) ob (data x))))).
Proof.
  intros Hm Hs Hw. unfold well_shaped, layers in Hm.
  apply chain_app in Hm as (k & Hc & Hi & Ho).
  unfold mlp_forward. rewrite (hidden_forward_rows _ x lead ob k Hc Hs Hw). cbn [bind].
  subst k. rewrite (Linear_forward_rows (output m) _ lead) by reflexivity.
  rewrite Ho. f_equal. f_equal. cbn [data].
  rewrite <- (chunks_length (numel lead) ob (data x)) at 1.
  rewrite <- (length_map (fold_left (fun r l => map activation (affine l r)) (hidden m))).
  rewrite chunks_of_concat.
  - rewrite map_map. reflexivity.
  - apply Forall_map.
    assert (Hlen : length (data x) = (numel lead * ob)%nat).
    { unfold wf_tensor in Hw. rewrite Hw, Hs, numel_app. simpl. lia. }
    eapply Forall_impl; [|apply (chunks_Forall_length _ _ _ Hlen)].
    intros c Hlc. clear - Hc Hlc. revert c ob Hc Hlc.
    induction (hidden m) as [|l ls IH]; intros c ob Hc Hlc; simpl in *.
    + injection Hc as <-. exact Hlc.
    + destruct (in_features l =? ob)%nat; [|discriminate].
      apply (IH _ (out_features l) Hc). rewrite length_map. apply affine_length.
Qed.
End Rows.

Lemma sum_squares_nonneg (a b : list R) : 0 <= sum (zip_with sq_diff a b).
Proof.
  revert b. induction a as [|x a IH]; intros [|y b]; try (unfold zip_with; simpl; lra).
  change (0 <= sq_diff x y + sum (zip_with sq_diff a b)).
  specialize (IH b). pose proof (Rle_0_sqr (x - y)) as Hx.
  unfold Rsqr in Hx. unfold sq_diff at 1. lra.
Qed.

Lemma sum_squares_zero (a b : list R) :
  length a = length b -> (sum (zip_with sq_diff a b) = 0 <-> a = b).
Proof.
  revert b. induction a as [|x a IH]; intros [|y b] H; try discriminate.
  - split; reflexivity.
  - simpl in H. injection H as H. specialize (IH b H).
    pose proof (sum_squares_nonneg a b) as Hn.
    pose proof (Rle_0_sqr (x - y)) as Hx. unfold Rsqr in Hx.
    change (sq_diff x y + sum (zip_with sq_diff a b) = 0 <-> x :: a = y :: b).
    unfold sq_diff at 1. split.
    + intros E. assert (Hz : (x - y) * (x - y) = 0) by lra.
      assert (Hs : sum (zip_with sq_diff a b) = 0) by lra.
      apply Rmult_integral in Hz. f_equal; [lra | apply IH, Hs].
    + intros E. injection E as -> ->.
      assert (Hs : sum (zip_with sq_diff b b) = 0) by (apply IH; reflexivity).
      rewrite Hs. lra.
Qed.


Lemma div_INR_zero (s : R) (n : nat) : n <> 0%nat -> (s / INR n = 0 <-> s = 0).
Proof.
  intros H. assert (0 < INR n) by (apply lt_0_INR; lia). split.
  - intros E. apply (Rmult_eq_compat_r (INR n)) in E.
    unfold Rdiv in E. rewrite Rmult_assoc, Rinv_l, Rmult_1_r, Rmult_0_l in E; lra.
  - intros ->. unfold Rdiv. lra.
Qed.

Section Critic.
Import Critics.
Variable activation : R -> R.
Variable build : builder.
Variable partial : autograd.

Lemma critic_init_network (ob_dim n_layers layer_size : Z) (learning_rate : R)
      (self : ValueCritic) :
  init build ob_dim n_layers layer_size learning_rate = Ok self ->
  build ob_dim 1%Z n_layers layer_size = Ok (network self)
  /\ grad self = None
  /\ optimizer self
     = mkAdam learning_rate 0
         (repeat 0 (Policies.total_numel (parameters self)))
         (repeat 0 (Policies.total_numel (parameters self))).
Proof.
  unfold init. destruct (build ob_dim 1%Z n_layers layer_size) as [net|]; [|discriminate].
  simpl. unfold new_Adam. destruct (Rlt_dec learning_rate 0); [discriminate|].
  simpl. intros H. injection H as <-. repeat split.
Qed.

(** X4: a critic constructed for observations of width [ob_dim] maps a
    batch of any leading shape to one value per observation: the result has
    the leading shape followed by a last dimension of size 1 (so [N]
    observations give shape [N x 1], not [N]). *)
Theorem critic_forward_one_value_per_observation :
  forall (ob_dim n_layers layer_size : Z) (learning_rate : R) (self : ValueCritic)
         (obs : tensor) (lead : list nat),
    builder_ok build ->
    init build ob_dim n_layers layer_size learning_rate = Ok self ->
    shape obs = lead ++ [Z.to_nat ob_dim] -> wf_tensor obs ->
    exists y, forward activation self obs = Ok y
              /\ shape y = lead ++ [1%nat]
              /\ length (data y) = numel lead.
Proof.
  intros ob_dim n_layers layer_size learning_rate self obs lead Hb Hinit Hs Hw.
  apply critic_init_network in Hinit as (Hnet & _). apply Hb in Hnet.
  destruct (mlp_forward_shape activation (network self) obs lead _ _ Hnet Hs Hw)
    as (y & Hy & Hsy & Hwy).
  exists y. split; [exact Hy|]. split; [exact Hsy|].
  unfold wf_tensor in Hwy. rewrite Hwy, Hsy, numel_app. simpl. lia.
Qed.

(** X5: the critic treats the observations of a batch independently: the
    prediction for a batch is the list of the predictions it makes for each
    observation passed alone, in the same order. *)
Theorem critic_forward_row_by_row :
  forall (self : ValueCritic) (rows : list (list R)) (ob : nat),
    well_shaped ob 1 (network self) ->
    Forall (fun r => length r = ob) rows ->
    exists ys : list (list R),
      Forall2 (fun r y => forward activation self (mkTensor [ob] r)
                          = Ok (mkTensor [1%nat] y)) rows ys
      /\ forward activation self (mkTensor [length rows; ob] (concat rows))
         = Ok (mkTensor [length rows; 1%nat] (concat ys)).
Proof.
  intros self rows ob Hnet Hrows.
  exists (map (mlp_row activation (network self)) rows). split.
  - induction Hrows as [|r rows Hr _ IH]; simpl; constructor; [|exact IH].
    unfold forward.
    rewrite (mlp_forward_rows activation (network self) (mkTensor [ob] r) [] ob 1 Hnet);
      [| reflexivity | unfold wf_tensor; simpl; lia].
    simpl. rewrite <- Hr, firstn_all, app_nil_r. reflexivity.
  - unfold forward.
    rewrite (mlp_forward_rows activation (network self) _ [length rows] ob 1 Hnet);
      [| reflexivity |].
    + cbn [app data numel fold_right]. rewrite Nat.mul_1_r, chunks_of_concat by exact Hrows.
      reflexivity.
    + unfold wf_tensor. simpl. rewrite (concat_length_const ob) by exact Hrows. lia.
Qed.


(** X7: for a non-empty batch with the targets given as a column, the
    baseline loss is zero exactly when every prediction equals its
    target. *)
Theorem baseline_loss_zero_iff_exact :
  forall (self : ValueCritic) (obs q_values : ndarray) (N ob : nat),
    well_shaped ob 1 (network self) ->
    nd_shape obs = [N; ob] -> wf_array obs ->
    nd_shape q_values = [N; 1%nat] -> wf_array q_values -> N <> 0%nat ->
    exists y l,
      forward activation self (from_numpy obs) = Ok y
      /\ snd (update activation partial self obs q_values)
         = Ok [("Baseline Loss"%string, mkArray [] [l])]
      /\ (l = 0 <-> data y = nd_data q_values).
Proof.
  intros self obs q N ob Hnet Hobs Hwobs Hq Hwq HN.
  destruct (mlp_forward_shape activation (network self) (from_numpy obs) [N] ob 1 Hnet)
    as (y & Hy & Hsy & Hwy); [exact Hobs | exact Hwobs |].
  simpl in Hsy.
  assert (Hlen : length (data y) = N).
  { unfold wf_tensor in Hwy. rewrite Hwy, Hsy. simpl. lia. }
  assert (Hlq : length (nd_data q) = N).
  { unfold wf_array in Hwq. rewrite Hwq, Hq. simpl. lia. }
  exists y. eexists. split; [exact Hy|]. split.
  - unfold update, critic_loss, forward, zero_grad. simpl network.
    unfold forward in Hy. rewrite Hy. simpl bind.
    unfold mse_loss. rewrite broadcast_op_same_shape.
    + simpl. reflexivity.
    + simpl. rewrite Hsy. exact Hq.
    + exact Hwy.
    + exact Hwq.
  - unfold mean. cbn [shape data]. rewrite Hsy.
    replace (numel [N; 1%nat]) with N by (simpl; lia).
    rewrite (div_INR_zero _ N HN).
    apply sum_squares_zero. rewrite Hlen. symmetry. exact Hlq.
Qed.
End Critic.

Lemma critic_forward_one_value_per_observation_witness :
  exists (self : Critics.ValueCritic) (y : tensor),
    Critics.init Examples.zero_builder 1 1 4 (1 / 100) = Ok self
    /\ Critics.forward tanh self (from_numpy Examples.obs_0_2) = Ok y
    /\ shape y = [2; 1]%nat.
Proof.
  destruct (Critics.init Examples.zero_builder 1 1 4 (1 / 100)) as [self|e] eqn:Hinit.
  - destruct (critic_forward_one_value_per_observation tanh Examples.zero_builder
                1 1 4 (1 / 100) self (from_numpy Examples.obs_0_2) [2%nat]
                (build_mlp_ok _ _) Hinit)
      as (y & Hy & Hs & _); [reflexivity | reflexivity |].
    exists self, y. split; [reflexivity|]. split; [exact Hy | exact Hs].
  - exfalso. revert Hinit. ev. destruct (Rlt_dec (1 / 100) 0); [lra | discriminate].
Defined.

Lemma critic_forward_row_by_row_witness :
  exists ys : list (list R),
    Forall2 (fun r y => Critics.forward tanh Examples.identity_critic (mkTensor [1%nat] r)
                        = Ok (mkTensor [1%nat] y)) [[0]; [2]] ys
    /\ Critics.forward tanh Examples.identity_critic (mkTensor [2; 1]%nat [0; 2])
       = Ok (mkTensor [2; 1]%nat (concat ys)).
Proof.
  apply (critic_forward_row_by_row tanh Examples.identity_critic [[0]; [2]] 1%nat).
  - reflexivity.
  - repeat constructor.
Defined.


Lemma baseline_loss_zero_iff_exact_witness :
  exists y l,
    Critics.forward tanh Examples.identity_critic (from_numpy Examples.obs_0_2) = Ok y
    /\ snd (Critics.update tanh central_difference Examples.identity_critic
              Examples.obs_0_2 Examples.targets_column)
       = Ok [("Baseline Loss"%string, mkArray [] [l])]
    /\ (l = 0 <-> data y = nd_data Examples.targets_column).
Proof.
  apply (baseline_loss_zero_iff_exact tanh central_difference Examples.identity_critic
           Examples.obs_0_2 Examples.targets_column 2 1); try reflexivity. lia.
Defined.

(** ** The distributions [forward] returns *)





Lemma broadcast_shapes_matrix_row (n d : nat) :
  broadcast_shapes [n; d] [d] = Some [n; d].
Proof.
  unfold broadcast_shapes, pad_shape.
  destruct n as [|[|n]]; simpl; rewrite Nat.eqb_refl; reflexivity.
Qed.

Lemma mlp_forward_wrong_width (activation : R -> R) (m : mlp) (x : tensor)
      (lead : list nat) (ob ac k : nat) :
  well_shaped ob ac m -> shape x = lead ++ [k] -> k <> ob ->
  mlp_forward activation m x = Raise ShapeError.
Proof.
  intros Hm Hs Hk. unfold well_shaped, layers in Hm. unfold mlp_forward.
  assert (Hl : forall l, in_features l = ob -> Linear_forward l x = Raise ShapeError).
  { intros l Hi. unfold Linear_forward. rewrite Hs.
    destruct (lead ++ [k]) eqn:E; [reflexivity|].
    rewrite <- E, last_last, Hi.
    destruct (Nat.eqb_spec k ob); [contradiction | reflexivity]. }
  destruct (hidden m) as [|l ls]; simpl in *.
  - destruct (Nat.eqb_spec (in_features (output m)) ob) as [Hi|]; [|discriminate].
    apply Hl, Hi.
  - destruct (Nat.eqb_spec (in_features l) ob) as [Hi|]; [|discriminate].
    rewrite (Hl l Hi). reflexivity.
Qed.

Section Distributions.
Import Policies.
Variable activation : R -> R.
Variable build : builder.

(** X8: a policy whose network accepts observations of width [ob] refuses
    an observation (or batch) of another width with a shape error, in
    [forward] and in [get_action]; [get_action] then hands back the policy
    and the random generator as they were: no variate is consumed. *)
Theorem get_action_rejects_wrong_width :
  forall (self : MLPPolicy) (net : mlp) (gen : generator) (obs : ndarray)
         (lead : list nat) (ob ac k : nat),
    (discrete self = true /\ logits_net self = Some net
     \/ discrete self = false /\ mean_net self = Some net /\ logstd self <> None) ->
    well_shaped ob ac net ->
    nd_shape obs = lead ++ [k] -> k <> ob ->
    forward activation true self (from_numpy obs) = Raise ShapeError
    /\ get_action activation self gen obs = (self, gen, Raise ShapeError).
Proof.
  intros self net gen obs lead ob ac k Hmode Hnet Hs Hk.
  pose proof (mlp_forward_wrong_width activation net (from_numpy obs) lead ob ac k
                Hnet Hs Hk) as Hf.
  unfold get_action, forward.
  destruct Hmode as [[Hd Hl]|(Hd & Hm & Hls)].
  - rewrite Hd, Hl, Hf. split; reflexivity.
  - rewrite Hd, Hm. destruct (logstd self); [|contradiction].
    rewrite Hf. split; reflexivity.
Qed.


(** X10: for a continuous policy, [forward] on a batch of [N] observations
    returns a Normal distribution of batch shape [N x ac] whose standard
    deviation is the same for every observation, namely the exponential of
    the log-std parameter, and is positive in every entry. *)
Theorem forward_continuous_scale :
  forall (g : bool) (self : MLPPolicy) (net : mlp) (ls obs : tensor) (N ob ac : nat),
    discrete self = false -> mean_net self = Some net -> logstd self = Some ls ->
    well_shaped ob ac net -> shape ls = [ac] -> wf_tensor ls ->
    shape obs = [N; ob] -> wf_tensor obs ->
    exists loc scale,
      forward activation g self obs = Ok (Normal loc scale g)
      /\ mlp_forward activation net obs = Ok loc
      /\ shape loc = [N; ac] /\ shape scale = [N; ac]
      /\ data scale = concat (repeat (map exp (data ls)) N)
      /\ Forall (fun s => 0 < s) (data scale).
Proof.
  intros g self net ls obs N ob ac Hd Hm Hls Hnet Hsl Hwl Hs Hw.
  destruct (mlp_forward_shape activation net obs [N] ob ac Hnet Hs Hw)
    as (y & Hy & Hsy & Hwy).
  simpl in Hsy. unfold forward. rewrite Hd, Hm, Hls, Hy. cbn [bind].
  unfold new_Normal. cbn [map_tensor shape data]. rewrite Hsy, Hsl.
  rewrite broadcast_shapes_matrix_row.
  assert (Hll : length (map exp (data ls)) = ac).
  { rewrite length_map. unfold wf_tensor in Hwl. rewrite Hwl, Hsl. simpl. lia. }
  rewrite expand_to_same by (unfold wf_tensor in Hwy; rewrite Hwy, Hsy; reflexivity).
  rewrite (expand_row ac N) by exact Hll.
  exists (mkTensor [N; ac] (data y)), (mkTensor [N; ac] (concat (repeat (map exp (data ls)) N))).
  split; [reflexivity|]. split; [rewrite <- Hsy; destruct y; reflexivity|].
  repeat split.
  apply Forall_concat, Forall_repeat, Forall_map, Forall_forall.
  intros x _. apply exp_pos.
Qed.
End Distributions.

Lemma get_action_rejects_wrong_width_witness :
  Policies.get_action tanh Examples.two_action_policy Examples.zero_generator
                      obs_wide
  = (Examples.two_action_policy, Examples.zero_generator, Raise ShapeError).
Proof.
  apply (proj2 (get_action_rejects_wrong_width tanh Examples.two_action_policy
                  Examples.two_action_net Examples.zero_generator
                  obs_wide [] 1%nat 2%nat 3%nat
                  (or_introl (conj eq_refl eq_refl)) eq_refl eq_refl
                  ltac:(lia))).
Defined.


Lemma forward_continuous_scale_witness :
  exists loc scale,
    Policies.forward tanh true Examples.unit_normal_policy (from_numpy Examples.obs3)
    = Ok (Normal loc scale true)
    /\ data scale = concat (repeat (map exp [0]) 3).
Proof.
  destruct (forward_continuous_scale tanh true Examples.unit_normal_policy
              Examples.unit_normal_net (mkTensor [1%nat] [0])
              (from_numpy Examples.obs3) 3 1 1)
    as (loc & scale & Hf & _ & _ & _ & Hd & _); try reflexivity.
  exists loc, scale. split; [exact Hf | exact Hd].
Defined.

(** ** Sampling actions *)


Lemma nth_zip_with {A B C : Type} (f : A -> B -> C) (la : list A) (lb : list B)
      (i : nat) (da : A) (db : B) (dc : C) :
  (i < length la)%nat -> (i < length lb)%nat ->
  nth i (zip_with f la lb) dc = f (nth i la da) (nth i lb db).
Proof.
  revert lb i. induction la as [|a la IH]; intros [|b lb] [|i] Ha Hb;
    simpl in *; try lia; [reflexivity|].
  apply IH; lia.
Qed.

Lemma draws_length (f : nat -> R) (g : generator) (n : nat) : length (draws f g n) = n.
Proof. unfold draws. rewrite length_map, length_seq. reflexivity. Qed.

Lemma draws_nth (f : nat -> R) (g : generator) (n i : nat) :
  (i < n)%nat -> nth i (draws f g n) 0 = f (position g + i)%nat.
Proof.
  intros H. unfold draws.
  rewrite (nth_indep _ 0 (f (position g + 0)%nat)) by (rewrite length_map, length_seq; exact H).
  rewrite (map_nth (fun i => f (position g + i)%nat)), seq_nth by exact H. reflexivity.
Qed.


Section Sampling.
Import Policies.
Variable activation : R -> R.


(** X12: a continuous policy asked for an action on one observation
    returns a vector of length [ac_dim] whose [j]-th coordinate is the
    [j]-th mean plus the exponential of the [j]-th log-std times the [j]-th
    standard normal variate drawn; it returns itself unchanged and advances
    the random generator by [ac_dim] variates. *)
Theorem get_action_continuous :
  forall (self : MLPPolicy) (net : mlp) (ls : tensor) (gen : generator) (obs : ndarray)
         (ob ac : nat),
    discrete self = false -> mean_net self = Some net -> logstd self = Some ls ->
    well_shaped ob ac net -> shape ls = [ac] -> wf_tensor ls ->
    nd_shape obs = [ob] -> wf_array obs ->
    exists means acts,
      mlp_forward activation net (from_numpy obs) = Ok means
      /\ get_action activation self gen obs
         = (self, advance gen ac, Ok (mkArray [ac] acts))
      /\ length acts = ac
      /\ forall j, (j < ac)%nat ->
           nth j acts 0
           = nth j (data means) 0
             + exp (nth j (data ls) 0) * gaussian gen (position gen + j)%nat.
Proof.
  intros self net ls gen obs ob ac Hd Hm Hls Hnet Hsl Hwl Hs Hw.
  destruct (mlp_forward_shape activation net (from_numpy obs) [] ob ac Hnet Hs Hw)
    as (y & Hy & Hsy & Hwy).
  simpl in Hsy.
  assert (Hly : length (data y) = ac).
  { unfold wf_tensor in Hwy. rewrite Hwy, Hsy. simpl. lia. }
  assert (Hll : length (data ls) = ac).
  { unfold wf_tensor in Hwl. rewrite Hwl, Hsl. simpl. lia. }
  exists y. unfold get_action, forward. rewrite Hd, Hm, Hls, Hy. cbn [bind].
  unfold new_Normal. cbn [map_tensor shape data]. rewrite Hsy, Hsl.
  rewrite broadcast_shapes_same.
  rewrite !expand_to_same by (simpl; rewrite ?length_map; lia).
  unfold sample. cbn [shape data numel fold_right]. rewrite Nat.mul_1_r.
  eexists. split; [reflexivity|]. split; [reflexivity|]. cbn [data]. split.
  - rewrite zip_with_length, length_combine, length_map, draws_length. lia.
  - intros j Hj.
    rewrite (nth_zip_with _ _ _ j (0, 0) 0 0)
      by (rewrite ?length_combine, ?length_map, ?draws_length; lia).
    rewrite combine_nth by (rewrite length_map; lia).
    rewrite draws_nth by exact Hj. simpl.
    rewrite (nth_indep (map exp (data ls)) 0 (exp 0)) by (rewrite length_map; lia).
    rewrite (map_nth exp). reflexivity.
Qed.
End Sampling.


Lemma get_action_continuous_witness :
  exists means acts,
    mlp_forward tanh Examples.unit_normal_net (from_numpy Examples.single_obs) = Ok means
    /\ Policies.get_action tanh Examples.unit_normal_policy Examples.zero_generator
                           Examples.single_obs
       = (Examples.unit_normal_policy, advance Examples.zero_generator 1,
          Ok (mkArray [1%nat] acts))
    /\ length acts = 1%nat.
Proof.
  destruct (get_action_continuous tanh Examples.unit_normal_policy
              Examples.unit_normal_net (mkTensor [1%nat] [0]) Examples.zero_generator
              Examples.single_obs 1 1)
    as (means & acts & Hm & Hg & Hl & _); try reflexivity.
  exists means, acts. split; [exact Hm|]. split; [exact Hg | exact Hl].
Defined.

(** ** Construction and the bookkeeping of an update *)

Section FreshState.
Import Policies.
Variable build : builder.

(** X13: a policy that has just been constructed stores no gradients; its
    optimizer has taken no step, holds the (non-negative) learning rate it
    was given and one zero first and second moment per scalar parameter; in
    continuous mode the log-std is the zero vector of length [ac_dim], so the
    standard deviation starts at 1. *)
Theorem init_fresh_state :
  forall (ac_dim ob_dim : Z) (d : bool) (n_layers layer_size : Z)
         (learning_rate : R) (self : MLPPolicy),
    init build ac_dim ob_dim d n_layers layer_size learning_rate = Ok self ->
    discrete self = d
    /\ grad self = None
    /\ fresh_optimizer (optimizer self)
    /\ lr (optimizer self) = learning_rate /\ 0 <= learning_rate
    /\ length (exp_avg (optimizer self)) = total_numel (parameters self)
    /\ length (exp_avg_sq (optimizer self)) = total_numel (parameters self)
    /\ (d = false ->
        (0 <= ac_dim)%Z
        /\ logstd self = Some (mkTensor [Z.to_nat ac_dim] (repeat 0 (Z.to_nat ac_dim)))
        /\ forall ls, logstd self = Some ls -> Forall (fun s => exp s = 1) (data ls)).
Proof.
  intros ac_dim ob_dim d n_layers layer_size learning_rate self. unfold init.
  assert (Hz : forall n, all_zero (repeat 0 n))
    by (intros n; apply Forall_repeat; reflexivity).
  destruct d.
  - destruct (build ob_dim ac_dim n_layers layer_size) as [net|]; [|discriminate].
    cbn [bind]. unfold new_Adam.
    destruct (Rlt_dec learning_rate 0) as [|Hlr]; [discriminate|].
    cbn [bind]. intros H. injection H as <-.
    unfold parameters, fresh_optimizer. cbn.
    rewrite !repeat_length. repeat split; auto; try lra; try discriminate.
  - destruct (build ob_dim ac_dim n_layers layer_size) as [net|]; [|discriminate].
    cbn [bind]. unfold torch_zeros.
    destruct (ac_dim <? 0)%Z eqn:Hac; [discriminate|]. apply Z.ltb_ge in Hac.
    cbn [bind]. unfold new_Adam.
    destruct (Rlt_dec learning_rate 0) as [|Hlr]; [discriminate|].
    cbn [bind]. intros H. injection H as <-.
    unfold parameters, fresh_optimizer. cbn.
    rewrite !repeat_length. repeat split; auto; try lra.
    intros ls' Hls. injection Hls as <-. cbn.
    apply Forall_repeat, exp_0.
Qed.
End FreshState.


Section Bookkeeping.
Import Policies.
Variable activation : R -> R.
Variable partial : autograd.

End Bookkeeping.

Lemma init_fresh_state_witness :
  exists self : Policies.MLPPolicy,
    Policies.init Examples.zero_builder 2 1 false 1 4 (1 / 100) = Ok self
    /\ Policies.grad self = None
    /\ Policies.logstd self = Some (mkTensor [2%nat] [0; 0]).
Proof.
  destruct (Policies.init Examples.zero_builder 2 1 false 1 4 (1 / 100))
    as [self|e] eqn:Hinit.
  - destruct (init_fresh_state Examples.zero_builder 2 1 false 1 4 (1 / 100) self Hinit)
      as (_ & Hg & _ & _ & _ & _ & _ & Hc).
    destruct (Hc eq_refl) as (_ & Hl & _).
    exists self. split; [reflexivity|]. split; [exact Hg | exact Hl].
  - exfalso. revert Hinit. ev. destruct (Rlt_dec (1 / 100) 0); [lra | discriminate].
Defined.


(** ** What an update of the critic touches *)

Section CriticUpdate.
Import Critics.
Variable activation : R -> R.
Variable partial : autograd.

Lemma stepped_critic_eq (self : ValueCritic) (L : list R -> R) :
  let theta := flatten (parameters self) in
  let r := adam_step (optimizer self) theta (gradient partial L theta) in
  stepped_critic partial self L
  = mkCritic (fst (load_mlp (network self) (snd r)))
             (Some (gradient partial L theta)) (fst r).
Proof.
  unfold stepped_critic, optimizer_step. cbn [grad backward zero_grad].
  change (parameters (backward partial (zero_grad self) L)) with (parameters self).
  change (optimizer (backward partial (zero_grad self) L)) with (optimizer self).
  change (parameters (zero_grad self)) with (parameters self).
  cbv zeta. destruct (adam_step _ _ _) as [opt theta']. reflexivity.
Qed.

Lemma critic_update_cases (self : ValueCritic) (obs q_values : ndarray) :
  let L := loss_fn activation (zero_grad self) (from_numpy obs) (from_numpy q_values) in
  (exists e, update activation partial self obs q_values = (zero_grad self, Raise e))
  \/ (exists loss,
         update activation partial self obs q_values
         = (stepped_critic partial self L,
            Ok [("Baseline Loss"%string, mkArray [] [loss])])).
Proof.
  cbv zeta. unfold update.
  destruct (critic_loss _ _ _ _) as [loss|e]; [right; exists loss | left; exists e];
    reflexivity.
Qed.

(** X15: [ValueCritic.update] keeps the architecture: every parameter has
    the shape it had, the learning rate is the same, a successful call
    advances the step counter of Adam by exactly one and a failed one leaves
    the optimizer as it was; a well-formed critic (one moment pair per scalar
    parameter, every parameter as many values as its shape says) stays
    well-formed and no parameter changes its number of values. *)
Theorem critic_update_invariants :
  forall (self : ValueCritic) (obs q_values : ndarray),
    let r := update activation partial self obs q_values in
    map shape (parameters (fst r)) = map shape (parameters self)
    /\ lr (optimizer (fst r)) = lr (optimizer self)
    /\ (is_ok (snd r) = true ->
        step_count (optimizer (fst r)) = S (step_count (optimizer self)))
    /\ (is_ok (snd r) = false -> optimizer (fst r) = optimizer self)
    /\ (wf_critic self ->
        sizes (parameters (fst r)) = sizes (parameters self) /\ wf_critic (fst r)).
Proof.
  intros self obs q. cbv zeta.
  destruct (critic_update_cases self obs q) as [[e E]|[loss E]];
    rewrite E; cbn [fst snd is_ok].
  - repeat split; auto; try discriminate; apply H.
  - rewrite stepped_critic_eq. unfold parameters. cbn [network optimizer].
    split; [apply load_mlp_shapes|].
    split; [reflexivity|]. split; [intros _; reflexivity|].
    split; [discriminate|].
    intros (Hw & Hm & Hv). unfold parameters in *.
    set (theta := flatten (mlp_parameters (network self))) in *.
    destruct (adam_step_lengths (optimizer self) theta
                (gradient partial
                   (loss_fn activation (zero_grad self) (from_numpy obs) (from_numpy q))
                   theta)
                (Policies.total_numel (mlp_parameters (network self))) Hm Hv)
      as (Ht & Hm' & Hv'); [apply gradient_length | reflexivity |].
    assert (Hs : sizes (mlp_parameters (fst (load_mlp (network self)
                  (snd (adam_step (optimizer self) theta
                     (gradient partial
                        (loss_fn activation (zero_grad self) (from_numpy obs)
                                 (from_numpy q)) theta))))))
                 = sizes (mlp_parameters (network self)))
      by (apply load_mlp_sizes; lia).
    split; [exact Hs|].
    assert (Hn : Policies.total_numel (mlp_parameters (fst (load_mlp (network self)
                  (snd (adam_step (optimizer self) theta
                     (gradient partial
                        (loss_fn activation (zero_grad self) (from_numpy obs)
                                 (from_numpy q)) theta))))))
                 = Policies.total_numel (mlp_parameters (network self)))
      by (rewrite !total_numel_sizes, Hs; reflexivity).
    unfold wf_critic, parameters. cbn [network optimizer].
    split; [|split].
    + apply (wf_transfer _ (mlp_parameters (network self)));
        [exact Hs | apply load_mlp_shapes | exact Hw].
    + rewrite Hn. exact Hm'.
    + rewrite Hn. exact Hv'.
Qed.
End CriticUpdate.

Lemma critic_update_invariants_witness :
  sizes (Critics.parameters
           (fst (Critics.update tanh central_difference Examples.identity_critic
                   Examples.obs_0_2 Examples.targets_column)))
  = sizes (Critics.parameters Examples.identity_critic)
  /\ step_count (Critics.optimizer
                   (fst (Critics.update tanh central_difference Examples.identity_critic
                           Examples.obs_0_2 Examples.targets_column)))
     = 1%nat
  /\ Critics.optimizer
       (fst (Critics.update tanh central_difference Examples.identity_critic
               Examples.obs_0_2 Examples.targets_column3))
     = Critics.optimizer Examples.identity_critic.
Proof.
  pose proof (critic_update_invariants tanh central_difference Examples.identity_critic
                Examples.obs_0_2 Examples.targets_column) as (_ & _ & Hs & _ & Hw).
  pose proof (critic_update_invariants tanh central_difference Examples.identity_critic
                Examples.obs_0_2 Examples.targets_column3) as (_ & _ & _ & Hf & _).
  split; [|split].
  - apply Hw. repeat split. repeat constructor.
  - apply Hs. reflexivity.
  - apply Hf. reflexivity.
Defined.

(** ** The size of the first Adam step *)

Lemma load_Linear_split (l : Linear) (theta : list R) :
  flatten (Linear_parameters (fst (load_Linear l theta))) ++ snd (load_Linear l theta)
  = theta.
Proof.
  unfold load_Linear, load_tensor, flatten. cbn.
  rewrite app_nil_r, <- app_assoc, !firstn_skipn. reflexivity.
Qed.

Lemma load_layers_split (ls : list Linear) (theta : list R) :
  flatten (flat_map Linear_parameters (fst (load_layers ls theta)))
  ++ snd (load_layers ls theta) = theta.
Proof.
  revert theta. induction ls as [|l ls IH]; intros theta; [reflexivity|].
  cbn [load_layers].
  pose proof (load_Linear_split l theta) as Hl.
  destruct (load_Linear l theta) as [l1 theta1]. cbn [fst snd] in Hl.
  specialize (IH theta1). destruct (load_layers ls theta1) as [ls1 theta2].
  cbn [fst snd flat_map] in *.
  rewrite flatten_app, <- app_assoc, IH. exact Hl.
Qed.

Lemma load_mlp_split (m : mlp) (theta : list R) :
  flatten (mlp_parameters (fst (load_mlp m theta))) ++ snd (load_mlp m theta) = theta.
Proof.
  unfold load_mlp, mlp_parameters, layers.
  pose proof (load_layers_split (hidden m) theta) as Hh.
  destruct (load_layers (hidden m) theta) as [hs theta1]. cbn [fst snd] in Hh.
  pose proof (load_Linear_split (output m) theta1) as Ho.
  destruct (load_Linear (output m) theta1) as [o theta2]. cbn [fst snd hidden output] in *.
  rewrite flat_map_app, flatten_app. cbn [flat_map]. rewrite app_nil_r, <- app_assoc, Ho.
  exact Hh.
Qed.

Lemma app_same_length_nil {A : Type} (a rest b : list A) :
  a ++ rest = b -> length a = length b -> a = b.
Proof.
  intros H Hl. assert (Hr : rest = []).
  { apply (f_equal (@length A)) in H. rewrite length_app in H.
    destruct rest; [reflexivity | simpl in H; lia]. }
  subst rest. rewrite app_nil_r in H. exact H.
Qed.

(** Loading a vector with one value per scalar parameter and reading the
    parameters back gives the vector. *)
Lemma flatten_load_parameters (self : Policies.MLPPolicy) (theta : list R) :
  length theta = Policies.total_numel (Policies.parameters self) ->
  flatten (Policies.parameters (Policies.load_parameters self theta)) = theta.
Proof.
  intros H.
  assert (Hs : length (flatten (Policies.parameters (Policies.load_parameters self theta)))
               = length theta).
  { change (Policies.total_numel (Policies.parameters (Policies.load_parameters self theta))
            = length theta).
    rewrite total_numel_sizes, load_parameters_sizes, <- total_numel_sizes by lia.
    symmetry. exact H. }
  revert H Hs. destruct self as [d ln mn ls gr opt].
  unfold Policies.load_parameters, Policies.parameters.
  cbn [Policies.discrete Policies.logits_net Policies.mean_net Policies.logstd
       Policies.grad Policies.optimizer].
  destruct d.
  - destruct ln as [net|].
    + cbn [Policies.discrete Policies.logits_net]. intros _ Hs.
      apply (app_same_length_nil _ _ _ (load_mlp_split net theta) Hs).
    + intros H _. destruct theta; [reflexivity | discriminate].
  - destruct ls as [t|]; [destruct mn as [net|]|].
    + unfold load_tensor.
      cbn [Policies.discrete Policies.logstd Policies.mean_net]. intros _ Hs.
      apply (app_same_length_nil _ (snd (load_mlp net (skipn (length (data t)) theta))));
        [|exact Hs].
      change (flatten (mkTensor (shape t) (firstn (length (data t)) theta)
                         :: mlp_parameters (fst (load_mlp net (skipn (length (data t)) theta)))))
        with (firstn (length (data t)) theta
              ++ flatten (mlp_parameters (fst (load_mlp net (skipn (length (data t)) theta))))).
      rewrite <- app_assoc, load_mlp_split. apply firstn_skipn.
    + cbn [Policies.discrete Policies.logstd Policies.mean_net].
      intros H _. destruct theta; [reflexivity | discriminate].
    + cbn [Policies.discrete Policies.logstd Policies.mean_net].
      intros H _. destruct theta; [reflexivity | discriminate].
Qed.

Lemma first_second_moment_root (g : R) :
  sqrt (beta2 * 0 + (1 - beta2) * (g * g)) / sqrt (1 - beta2 ^ 1) = Rabs g.
Proof.
  unfold beta2. cbn [pow].
  replace (999 / 1000 * 0 + (1 - 999 / 1000) * (g * g)) with (1 / 1000 * Rsqr g)
    by (unfold Rsqr; lra).
  replace (1 - 999 / 1000 * 1) with (1 / 1000) by lra.
  rewrite sqrt_mult by (try apply Rle_0_sqr; lra).
  rewrite sqrt_Rsqr_abs.
  assert (0 < sqrt (1 / 1000)) by (apply sqrt_lt_R0; lra).
  field. lra.
Qed.

(** The first step of a parameter with gradient [g] is
    [lr * g / (|g| + eps)] against the gradient: never more than [lr]. *)
Lemma first_step_element (rate p g : R) :
  0 <= rate ->
  Rabs (adam_param (rate / (1 - beta1 ^ 1)) (1 - beta2 ^ 1) p
          (beta1 * 0 + (1 - beta1) * g, beta2 * 0 + (1 - beta2) * (g * g)) - p)
  <= rate.
Proof.
  intros Hr. unfold adam_param. cbn [fst snd].
  rewrite first_second_moment_root. unfold beta1, eps. cbn [pow].
  pose proof (Rabs_pos g) as Hg.
  assert (Hd : 0 < Rabs g + 1 / 100000000) by lra.
  replace (p - rate / (1 - 9 / 10 * 1)
               * ((9 / 10 * 0 + (1 - 9 / 10) * g) / (Rabs g + 1 / 100000000)) - p)
    with (- (rate * (g / (Rabs g + 1 / 100000000)))) by (field; lra).
  rewrite Rabs_Ropp, Rabs_mult, (Rabs_pos_eq rate) by exact Hr.
  assert (Hq : Rabs (g / (Rabs g + 1 / 100000000)) <= 1).
  { unfold Rdiv. rewrite Rabs_mult, Rabs_inv, (Rabs_pos_eq (Rabs g + _)) by lra.
    apply (Rmult_le_reg_r (Rabs g + 1 / 100000000)); [exact Hd|].
    rewrite Rmult_assoc, Rinv_l by lra. lra. }
  pose proof (Rabs_pos (g / (Rabs g + 1 / 100000000))). nra.
Qed.

Lemma first_step_bound (o : Adam) (theta g : list R) :
  fresh_optimizer o -> 0 <= lr o ->
  length (exp_avg o) = length theta -> length (exp_avg_sq o) = length theta ->
  length g = length theta ->
  Forall2 (fun p p' => Rabs (p' - p) <= lr o) theta (snd (adam_step o theta g)).
Proof.
  intros (Hstep & Hm & Hv) Hr Lm Lv Lg. unfold adam_step. cbn [snd]. rewrite Hstep.
  rewrite (all_zero_eq _ Hm), (all_zero_eq _ Hv), Lm, Lv.
  clear Hm Hv Lm Lv Hstep. revert g Lg.
  induction theta as [|p theta IH]; intros [|gi g] Lg; try discriminate.
  - constructor.
  - unfold zip_with in *. cbn. constructor.
    + apply first_step_element, Hr.
    + apply IH. simpl in Lg. lia.
Qed.

Section FirstStep.
Import Policies.
Variable activation : R -> R.
Variable partial : autograd.

(** X16: the first successful update of a policy whose optimizer has not
    stepped yet moves every scalar parameter by at most the learning rate,
    whatever the gradient of the batch is. *)
Theorem first_update_moves_at_most_lr :
  forall (self : MLPPolicy) (obs actions advantages : ndarray),
    wf_policy self -> fresh_optimizer (optimizer self) -> 0 <= lr (optimizer self) ->
    is_ok (snd (MLPPolicyPG_update activation partial self obs actions advantages))
    = true ->
    Forall2 (fun p p' => Rabs (p' - p) <= lr (optimizer self))
            (flatten (parameters self))
            (flatten (parameters
                        (fst (MLPPolicyPG_update activation partial self
                                obs actions advantages)))).
Proof.
  intros self obs actions advantages (Hw & Hm & Hv) Hf Hr.
  destruct (MLPPolicyPG_update_cases activation partial self obs actions advantages)
    as [[e E]|[[e E]|(loss & _ & E)]]; rewrite E; cbn [fst snd is_ok];
    try discriminate.
  intros _. rewrite stepped_parameters.
  set (theta := flatten (parameters self)).
  set (g := gradient partial _ theta).
  assert (Lg : length g = length theta) by apply gradient_length.
  destruct (adam_step_lengths (optimizer self) theta g (length theta) Hm Hv Lg eq_refl)
    as (Ht & _ & _).
  rewrite flatten_load_parameters by exact Ht.
  apply first_step_bound; assumption.
Qed.
End FirstStep.

Lemma first_update_moves_at_most_lr_witness :
  Forall2 (fun p p' => Rabs (p' - p) <= 1 / 100)
          (flatten (Policies.parameters Examples.unit_normal_policy))
          (flatten (Policies.parameters
                      (fst (Policies.MLPPolicyPG_update tanh central_difference
                              Examples.unit_normal_policy Examples.obs_zero
                              Examples.action_zero Examples.advantage_one)))).
Proof.
  apply (first_update_moves_at_most_lr tanh central_difference
           Examples.unit_normal_policy Examples.obs_zero Examples.action_zero
           Examples.advantage_one).
  - repeat split. repeat constructor.
  - repeat split; repeat constructor.
  - simpl. lra.
  - ev. reflexivity.
Defined.

(** ** The actor loss on well-formed batches *)

Lemma log_prob_categorical_rank1 (logits value : tensor) (g : bool) (N ac : nat) :
  shape logits = [N; ac] -> shape value = [N] -> wf_tensor value ->
  forallb (in_support ac) (data value) = true ->
  exists lp, log_prob (Categorical logits g) value = Ok lp
             /\ shape lp = [N] /\ wf_tensor lp
             /\ data lp = zip_with pick (chunks N ac (data logits)) (data value).
Proof.
  intros Hl Hv Hw Hsup. unfold log_prob. rewrite Hl, Hv.
  cbn [removelast last numel fold_right]. rewrite broadcast_shapes_same, Hsup.
  unfold wf_tensor in Hw. rewrite Hv in Hw. simpl in Hw.
  rewrite !expand_to_same by (simpl; rewrite ?chunks_length; lia).
  rewrite Nat.mul_1_r.
  eexists. split; [reflexivity|]. split; [reflexivity|]. split; [|reflexivity].
  unfold wf_tensor. cbn [data shape numel fold_right].
  rewrite zip_with_length, chunks_length. lia.
Qed.

Lemma log_prob_categorical_unsupported (logits value : tensor) (g : bool) (ac : nat) :
  last (shape logits) 0%nat = ac ->
  forallb (in_support ac) (data value) = false ->
  log_prob (Categorical logits g) value = Raise ValueError.
Proof.
  intros Hl Hsup. unfold log_prob. rewrite Hl, Hsup.
  destruct (broadcast_shapes _ _); reflexivity.
Qed.

Lemma log_prob_normal_same_shape (loc scale value : tensor) (g : bool) (s : list nat) :
  shape loc = s -> shape scale = s -> shape value = s ->
  wf_tensor loc -> wf_tensor scale -> wf_tensor value ->
  log_prob (Normal loc scale g) value
  = Ok (mkTensor s (zip_with normal_log_density
                      (zip_with sq_diff (data value) (data loc)) (data scale))).
Proof.
  intros Hl Hs Hv Wl Ws Wv. unfold log_prob. rewrite Hv, Hl, broadcast_shapes_same.
  rewrite (broadcast_op_same_shape sq_diff value loc) by (try assumption; congruence).
  cbn [bind]. rewrite broadcast_op_same_shape.
  - cbn [shape data]. rewrite Hv. reflexivity.
  - cbn [shape]. congruence.
  - unfold wf_tensor in *. cbn [shape data]. rewrite zip_with_length, Wl, Wv, Hl, Hv. lia.
  - exact Ws.
Qed.

Lemma chain_loaded (ls : list Linear) (l l' : Linear) (theta : list R) (i : nat) :
  in_features l' = in_features l -> out_features l' = out_features l ->
  chain i (fst (load_layers ls theta) ++ [l']) = chain i (ls ++ [l]).
Proof.
  intros Hi Ho. revert theta i. induction ls as [|h ls IH]; intros theta i.
  - simpl. rewrite Hi, Ho. reflexivity.
  - cbn [load_layers]. destruct (load_Linear h theta) as [h1 theta1] eqn:Eh.
    specialize (IH theta1). destruct (load_layers ls theta1) as [ls1 theta2].
    cbn [fst app chain] in *.
    assert (Hh : in_features h1 = in_features h /\ out_features h1 = out_features h).
    { unfold load_Linear, load_tensor in Eh. injection Eh as <- _. split; reflexivity. }
    destruct Hh as [-> ->]. destruct (in_features h =? i)%nat; [apply IH | reflexivity].
Qed.

(** Loading parameter values does not change the sizes a network accepts
    and produces. *)
Lemma load_mlp_well_shaped (m : mlp) (theta : list R) (ob ac : nat) :
  well_shaped ob ac m -> well_shaped ob ac (fst (load_mlp m theta)).
Proof.
  unfold well_shaped, layers, load_mlp. intros H.
  pose proof (chain_loaded (hidden m) (output m)) as Hc.
  destruct (load_layers (hidden m) theta) as [hs theta1] eqn:Eh.
  destruct (load_Linear (output m) theta1) as [o theta2] eqn:Eo.
  cbn [fst hidden output].
  specialize (Hc o theta ob). rewrite Eh in Hc. cbn [fst] in Hc.
  rewrite Hc; [exact H | |];
    unfold load_Linear, load_tensor in Eo; injection Eo as <- _; reflexivity.
Qed.

Section ActorLossOfBatches.
Import Policies.
Variable activation : R -> R.
Variable partial : autograd.

Lemma forward_discrete_form (g : bool) (self : MLPPolicy) (net : mlp) (obs : tensor)
      (N ob ac : nat) :
  discrete self = true -> logits_net self = Some net -> well_shaped ob ac net ->
  shape obs = [N; ob] -> wf_tensor obs ->
  exists logits, forward activation g self obs = Ok (Categorical logits g)
                 /\ shape logits = [N; ac].
Proof.
  intros Hd Hl Hnet Hs Hw.
  destruct (mlp_forward_shape activation net obs [N] ob ac Hnet Hs Hw)
    as (y & Hy & Hsy & _).
  simpl in Hsy. unfold forward. rewrite Hd, Hl, Hy. cbn [bind].
  unfold new_Categorical. rewrite Hsy. eexists. split; reflexivity.
Qed.

Lemma forward_continuous_form (g : bool) (self : MLPPolicy) (net : mlp) (ls obs : tensor)
      (N ob ac : nat) :
  discrete self = false -> mean_net self = Some net -> logstd self = Some ls ->
  well_shaped ob ac net -> shape ls = [ac] -> wf_tensor ls ->
  shape obs = [N; ob] -> wf_tensor obs ->
  exists loc scale, forward activation g self obs = Ok (Normal loc scale g)
                    /\ shape loc = [N; ac] /\ shape scale = [N; ac]
                    /\ wf_tensor loc /\ wf_tensor scale.
Proof.
  intros Hd Hm Hls Hnet Hsl Hwl Hs Hw.
  destruct (mlp_forward_shape activation net obs [N] ob ac Hnet Hs Hw)
    as (y & Hy & Hsy & Hwy).
  simpl in Hsy. unfold forward. rewrite Hd, Hm, Hls, Hy. cbn [bind].
  unfold new_Normal. cbn [map_tensor shape data]. rewrite Hsy, Hsl.
  rewrite broadcast_shapes_matrix_row.
  assert (Hll : length (map exp (data ls)) = ac).
  { rewrite length_map. unfold wf_tensor in Hwl. rewrite Hwl, Hsl. simpl. lia. }
  assert (Hly : length (data y) = numel [N; ac])
    by (unfold wf_tensor in Hwy; rewrite Hwy, Hsy; reflexivity).
  rewrite expand_to_same by exact Hly.
  rewrite (expand_row ac N) by exact Hll.
  eexists. eexists. split; [reflexivity|]. repeat split.
  - exact Hly.
  - unfold wf_tensor. cbn [data shape].
    rewrite (concat_length_const ac) by (apply Forall_repeat; exact Hll).
    rewrite repeat_length. simpl. lia.
Qed.

(** The loss of a discrete batch, for whatever values the parameters have:
    either the actions are rejected, or the loss is the product form. *)
Lemma pg_loss_discrete_value (self : MLPPolicy) (net : mlp)
      (obs actions advantages : tensor) (N ob ac : nat) :
  discrete self = true -> logits_net self = Some net -> well_shaped ob ac net ->
  shape obs = [N; ob] -> wf_tensor obs ->
  shape actions = [N] -> wf_tensor actions ->
  shape advantages = [N] -> wf_tensor advantages ->
  (forallb (in_support ac) (data actions) = false
   /\ pg_loss activation self obs actions advantages = Raise ValueError)
  \/ (forallb (in_support ac) (data actions) = true
      /\ exists d lp,
          forward activation true self obs = Ok d
          /\ log_prob d actions = Ok lp /\ shape lp = [N]
          /\ pg_loss activation self obs actions advantages
             = Ok (- (sum (data lp) * sum (data advantages) / INR (N * N)))).
Proof.
  intros Hd Hl Hnet Hs Hw Ha Hwa Hv Hwv.
  destruct (forward_discrete_form true self net obs N ob ac Hd Hl Hnet Hs Hw)
    as (logits & Hf & Hsl).
  destruct (forallb (in_support ac) (data actions)) eqn:Hsup.
  - right. split; [reflexivity|].
    destruct (log_prob_categorical_rank1 logits actions true N ac Hsl Ha Hwa Hsup)
      as (lp & Hlp & Hslp & Hwlp & _).
    exists (Categorical logits true), lp. repeat split; try assumption.
    apply (actor_loss_of_rank1_log_probs activation self obs actions advantages
             _ lp N Hf Hlp Hslp Hwlp Hv Hwv).
  - left. split; [reflexivity|]. unfold pg_loss. rewrite Hf. cbn [bind].
    rewrite (log_prob_categorical_unsupported logits actions true ac);
      [reflexivity | rewrite Hsl; reflexivity | exact Hsup].
Qed.


(** X18: under a continuous policy, for [N] observations, [N] actions of
    dimension [ac] and [N] advantages, [update] succeeds and returns as
    "Actor Loss" minus the sum over the examples of (advantage times the sum
    of the example's [ac] log-densities), divided by [N * ac]. *)
Theorem actor_loss_continuous_batch :
  forall (self : MLPPolicy) (net : mlp) (ls : tensor) (obs actions advantages : ndarray)
         (N ob ac : nat),
    discrete self = false -> mean_net self = Some net -> logstd self = Some ls ->
    well_shaped ob ac net -> shape ls = [ac] -> wf_tensor ls ->
    nd_shape obs = [N; ob] -> wf_array obs ->
    nd_shape actions = [N; ac] -> wf_array actions ->
    nd_shape advantages = [N] -> wf_array advantages ->
    exists d lp,
      forward activation true self (from_numpy obs) = Ok d
      /\ log_prob d (from_numpy actions) = Ok lp
      /\ shape lp = [N; ac]
      /\ snd (MLPPolicyPG_update activation partial self obs actions advantages)
         = Ok [("Actor Loss"%string,
                mkArray [] [- (sum (zip_with Rmult (map sum (chunks N ac (data lp)))
                                             (nd_data advantages))
                               / INR (N * ac))])].
Proof.
  intros self net ls obs actions advantages N ob ac
         Hd Hm Hls Hnet Hsl Hwl Hs Hw Ha Hwa Hv Hwv.
  destruct (forward_continuous_form true self net ls (from_numpy obs) N ob ac
              Hd Hm Hls Hnet Hsl Hwl Hs Hw)
    as (loc & scale & Hf & Hsloc & Hssc & Hwloc & Hwsc).
  pose proof (log_prob_normal_same_shape loc scale (from_numpy actions) true [N; ac]
                Hsloc Hssc Ha Hwloc Hwsc Hwa) as Hlp.
  eexists. eexists. split; [exact Hf|]. split; [exact Hlp|]. split; [reflexivity|].
  unfold MLPPolicyPG_update. rewrite Hs. cbn [nth_error].
  rewrite (actor_loss_of_rank2_log_probs activation (zero_grad self) (from_numpy obs)
             (from_numpy actions) (from_numpy advantages) _ _ N ac Hf Hlp eq_refl).
  - reflexivity.
  - unfold wf_tensor in *. cbn [data shape].
    rewrite !zip_with_length, Hwloc, Hwsc, Hsloc, Hssc.
    unfold wf_array in Hwa. cbn [from_numpy data]. rewrite Hwa, Ha. lia.
  - exact Hv.
  - exact Hwv.
Qed.
End ActorLossOfBatches.


Lemma actor_loss_continuous_batch_witness :
  exists d lp,
    Policies.forward tanh true Examples.unit_normal_policy (from_numpy Examples.obs3)
    = Ok d
    /\ log_prob d (from_numpy Examples.actions3) = Ok lp
    /\ shape lp = [3; 1]%nat.
Proof.
  destruct (actor_loss_continuous_batch tanh central_difference
              Examples.unit_normal_policy Examples.unit_normal_net
              (mkTensor [1%nat] [0]) Examples.obs3 Examples.actions3
              advantages3 3 1 1)
    as (d & lp & Hf & Hlp & Hs & _); try reflexivity.
  exists d, lp. split; [exact Hf|]. split; [exact Hlp | exact Hs].
Defined.

(** ** Advantages that add up to zero under a discrete policy *)

Section ZeroSum.
Import Policies.
Variable activation : R -> R.
Variable partial : autograd.

Lemma stepped_constant_loss (self : MLPPolicy) (L : list R -> R) (c : R) :
  (forall t, L t = c) ->
  wf_policy self -> all_zero (exp_avg (optimizer self)) ->
  is_gradient L (flatten (parameters self))
              (gradient partial L (flatten (parameters self))) ->
  logits_net (stepped_policy partial self L) = logits_net self
  /\ mean_net (stepped_policy partial self L) = mean_net self
  /\ logstd (stepped_policy partial self L) = logstd self.
Proof.
  intros HL (_ & Hm & Hv) Hm0 Hg.
  assert (Hg0 : all_zero (gradient partial L (flatten (parameters self))))
    by (apply (is_gradient_const L c _ _ HL Hg)).
  rewrite stepped_eq. cbn [logits_net mean_net logstd].
  rewrite adam_step_zero; try assumption; [|apply gradient_length].
  change (flatten (parameters self))
    with (flatten (parameters (backward partial (zero_grad self) L))).
  rewrite load_parameters_same. repeat split.
Qed.

Lemma loss_fn_zero_sum (self : MLPPolicy) (net : mlp)
      (obs actions advantages : tensor) (N ob ac : nat) :
  discrete self = true -> logits_net self = Some net -> well_shaped ob ac net ->
  shape obs = [N; ob] -> wf_tensor obs ->
  shape actions = [N] -> wf_tensor actions ->
  shape advantages = [N] -> wf_tensor advantages ->
  sum (data advantages) = 0 ->
  forall theta, loss_fn activation self obs actions advantages theta = 0.
Proof.
  intros Hd Hl Hnet Hs Hw Ha Hwa Hv Hwv Hsum theta. unfold loss_fn.
  assert (Hd' : discrete (load_parameters self theta) = true)
    by (rewrite (proj1 (load_parameters_frame self theta)); exact Hd).
  assert (Hl' : logits_net (load_parameters self theta)
                = Some (fst (load_mlp net theta))).
  { unfold load_parameters. rewrite Hd, Hl. reflexivity. }
  destruct (pg_loss_discrete_value activation (load_parameters self theta)
              (fst (load_mlp net theta)) obs actions advantages N ob ac
              Hd' Hl' (load_mlp_well_shaped net theta ob ac Hnet)
              Hs Hw Ha Hwa Hv Hwv)
    as [[_ ->]|(_ & d & lp & _ & _ & _ & ->)]; [reflexivity|].
  rewrite Hsum. unfold Rdiv. lra.
Qed.

(** X19: under a discrete policy, a batch of [N] observations, [N] actions
    and [N] advantages whose advantages add up to zero has loss zero for
    every value of the parameters, so the gradient of the loss is zero; an
    update on it leaves the logits network as it was whenever the first
    moments of Adam are zero. *)
Theorem zero_sum_advantages_teach_nothing :
  forall (self : MLPPolicy) (net : mlp) (obs actions advantages : ndarray) (N ob ac : nat),
    discrete self = true -> logits_net self = Some net -> well_shaped ob ac net ->
    nd_shape obs = [N; ob] -> wf_array obs ->
    nd_shape actions = [N] -> wf_array actions ->
    nd_shape advantages = [N] -> wf_array advantages ->
    sum (nd_data advantages) = 0 ->
    let L := loss_fn activation (zero_grad self) (from_numpy obs) (from_numpy actions)
                     (from_numpy advantages) in
    let theta := flatten (parameters self) in
    (forall t, L t = 0)
    /\ (forall g, is_gradient L theta g -> all_zero g)
    /\ (wf_policy self -> all_zero (exp_avg (optimizer self)) ->
        is_gradient L theta (gradient partial L theta) ->
        logits_net (fst (MLPPolicyPG_update activation partial self
                           obs actions advantages))
        = logits_net self).
Proof.
  intros self net obs actions advantages N ob ac Hd Hl Hnet Hs Hw Ha Hwa Hv Hwv Hsum L theta.
  assert (HL : forall t, L t = 0).
  { apply (loss_fn_zero_sum (zero_grad self) net _ _ _ N ob ac); assumption. }
  split; [exact HL|]. split; [intros g; apply (is_gradient_const L 0 theta g HL)|].
  intros Hwf Hm0 Hg.
  destruct (MLPPolicyPG_update_cases activation partial self obs actions advantages)
    as [[e E]|[[e E]|(loss & _ & E)]]; rewrite E; cbn [fst]; try reflexivity.
  apply (stepped_constant_loss self L 0 HL Hwf Hm0 Hg).
Qed.
End ZeroSum.

Lemma zero_sum_advantages_teach_nothing_witness :
  (forall t,
      Policies.loss_fn tanh (Policies.zero_grad Examples.two_action_policy)
        (from_numpy Examples.obs_0_1) (from_numpy Examples.actions_0_0)
        (from_numpy Examples.advantages_1_m1) t = 0)
  /\ Policies.logits_net
       (fst (Policies.MLPPolicyPG_update tanh central_difference
               Examples.two_action_policy Examples.obs_0_1 Examples.actions_0_0
               Examples.advantages_1_m1))
     = Policies.logits_net Examples.two_action_policy.
Proof.
  destruct (zero_sum_advantages_teach_nothing tanh central_difference
              Examples.two_action_policy Examples.two_action_net Examples.obs_0_1
              Examples.actions_0_0 Examples.advantages_1_m1 2 1 2)
    as (HL & _ & Hu); try reflexivity.
  - simpl. lra.
  - split; [exact HL|]. apply Hu.
    + repeat split. repeat constructor.
    + repeat constructor.
    + apply central_difference_const with (c := 0). exact HL.
Defined.

(** ** Targets given as a vector *)

Lemma broadcast_shapes_column_row (n m : nat) :
  broadcast_shapes [n; 1%nat] [m] = Some [n; m].
Proof.
  unfold broadcast_shapes, pad_shape.
  destruct n as [|[|n]]; destruct m as [|[|m]]; simpl; rewrite ?Nat.eqb_refl; reflexivity.
Qed.

Lemma zip_with_repeat_l {A B C : Type} (f : A -> B -> C) (x : A) (l : list B) :
  zip_with f (repeat x (length l)) l = map (f x) l.
Proof. induction l as [|y l IH]; unfold zip_with in *; simpl; [|rewrite IH]; reflexivity. Qed.

(** Every prediction against every target. *)
Lemma zip_with_all_pairs {A B C : Type} (f : A -> B -> C) (ys : list A) (qs : list B) :
  zip_with f (flat_map (fun y => repeat y (length qs)) ys)
             (concat (repeat qs (length ys)))
  = flat_map (fun y => map (f y) qs) ys.
Proof.
  induction ys as [|y ys IH]; simpl; [reflexivity|].
  rewrite zip_with_app by apply repeat_length.
  rewrite zip_with_repeat_l, IH. reflexivity.
Qed.

Section VectorTargets.
Import Critics.
Variable activation : R -> R.
Variable partial : autograd.

(** X20: when the [M] targets are given as a vector (shape [M]) for [N]
    observations, the predictions of shape [N x 1] are broadcast against
    them: no error is raised, whatever [N] and [M] are, and the baseline
    loss is the mean of the [N * M] squared differences between every
    prediction and every target. *)
Theorem baseline_loss_vector_targets :
  forall (self : ValueCritic) (obs q_values : ndarray) (N M ob : nat),
    well_shaped ob 1 (network self) ->
    nd_shape obs = [N; ob] -> wf_array obs ->
    nd_shape q_values = [M] -> wf_array q_values ->
    exists y,
      forward activation self (from_numpy obs) = Ok y
      /\ shape y = [N; 1%nat]
      /\ snd (update activation partial self obs q_values)
         = Ok [("Baseline Loss"%string,
                mkArray []
                  [sum (flat_map (fun p => map (sq_diff p) (nd_data q_values)) (data y))
                   / INR (N * M)])].
Proof.
  intros self obs q N M ob Hnet Hobs Hwobs Hq Hwq.
  destruct (mlp_forward_shape activation (network self) (from_numpy obs) [N] ob 1 Hnet)
    as (y & Hy & Hsy & Hwy); [exact Hobs | exact Hwobs |].
  simpl in Hsy.
  assert (Hly : length (data y) = N).
  { unfold wf_tensor in Hwy. rewrite Hwy, Hsy. simpl. lia. }
  assert (Hlq : length (nd_data q) = M).
  { unfold wf_array in Hwq. rewrite Hwq, Hq. simpl. lia. }
  exists y. split; [exact Hy|]. split; [exact Hsy|].
  unfold update, critic_loss, forward, zero_grad. cbn [network].
  unfold forward in Hy. rewrite Hy. cbn [bind].
  unfold mse_loss, broadcast_op. rewrite Hsy. cbn [from_numpy shape data]. rewrite Hq.
  rewrite broadcast_shapes_column_row.
  rewrite (expand_column N M) by exact Hly.
  rewrite (expand_row M N) by exact Hlq.
  cbn [bind]. unfold mean, scalar, to_numpy. cbn [shape data numel fold_right].
  cbn [snd]. subst N M. rewrite zip_with_all_pairs, Nat.mul_1_r. reflexivity.
Qed.
End VectorTargets.

Lemma baseline_loss_vector_targets_witness :
  exists y,
    Critics.forward tanh Examples.identity_critic (from_numpy Examples.obs_0_2) = Ok y
    /\ snd (Critics.update tanh central_difference Examples.identity_critic
              Examples.obs_0_2 Examples.targets3)
       = Ok [("Baseline Loss"%string,
              mkArray []
                [sum (flat_map (fun p => map (sq_diff p) (nd_data Examples.targets3))
                               (data y))
                 / INR (2 * 3)])].
Proof.
  destruct (baseline_loss_vector_targets tanh central_difference Examples.identity_critic
              Examples.obs_0_2 Examples.targets3 2 3 1)
    as (y & Hy & _ & Hu); try reflexivity.
  exists y. split; [exact Hy | exact Hu].
Defined.

(** ** Sampling and updating on the same batch *)



Section SampleThenUpdate.
Import Policies.
Variable activation : R -> R.
Variable partial : autograd.

End SampleThenUpdate.

